(** * Waste-classification API: detection handlers and the webcam pipeline

    A shallow embedding of [app/fastapi_app.py].  The request handlers are
    functions in an exception monad; the webcam globals, the capture thread
    and the MJPEG generators are a transition system whose events are the
    HTTP requests and the resumptions of the thread and of the generators. *)

From Stdlib Require Import ZArith Ascii String PrimFloat.
From stdpp Require Import base option list strings pretty gmap.

Open Scope string_scope.

(** ** Python values *)

(** [bytes] objects; a Rocq [string] is a sequence of 8-bit characters. *)
Definition bytes := string.

Definition CRLF : bytes := String "013"%char (String "010"%char "").

(** Exceptions.  [HTTPException] is FastAPI's; every other exception class
    (KeyError, AttributeError, cv2.error, binascii.Error, ...) is a
    [PyError] with its class name and message.  All are subclasses of
    [Exception], so an [except Exception] clause catches each of them. *)
Inductive exn :=
| HTTPException (status_code : Z) (detail : string)
| PyError (cls_name msg : string).

(** The outcome of a call: an exception raised or a value returned. *)
Definition py (A : Type) : Type := exn + A.

Definition ret {A} (a : A) : py A := inr a.
Definition raise {A} (e : exn) : py A := inl e.
Definition bind {A B} (m : py A) (k : A -> py B) : py B :=
  match m with
  | inl e => inl e
  | inr a => k a
  end.

(** [try: body  except Exception as e: handler e] *)
Definition try_except {A} (body : py A) (handler : exn -> py A) : py A :=
  match body with
  | inl e => handler e
  | inr a => inr a
  end.

Notation "'do' x <- m ; k" := (bind m (fun x => k))
  (at level 10, x name, m at level 100, k at level 200).
Notation "'do' ' p <- m ; k" := (bind m (fun p => k))
  (at level 10, p strict pattern, m at level 100, k at level 200).
Notation "'check' m ; k" := (bind m (fun _ => k))
  (at level 10, m at level 100, k at level 200).

(** [if cond: raise e] *)
Definition raise_if (cond : bool) (e : exn) : py unit :=
  if cond then raise e else ret tt.

(** JSON-like values stored in response dictionaries. *)
Inductive json :=
| JBool (b : bool)
| JInt (n : Z)
| JFloat (x : float)
| JStr (s : string)
| JFloats (l : list float).

(** A dict literal, keys in the order they are written. *)
Definition dict := list (string * json).

(** [len] *)
Definition len {A} (l : list A) : Z := Z.of_nat (length l).

(** ** Strings *)

Fixpoint str_drop (n : nat) (s : string) : string :=
  match n, s with
  | O, _ => s
  | S n', String _ s' => str_drop n' s'
  | S _, EmptyString => EmptyString
  end.

(** First occurrence of [sep] in [s]: the text before it and the text after. *)
Fixpoint str_partition (sep s : string) : option (string * string) :=
  if String.prefix sep s then Some ("", str_drop (String.length sep) s)
  else match s with
       | EmptyString => None
       | String c s' =>
           match str_partition sep s' with
           | Some (before, after) => Some (String c before, after)
           | None => None
           end
       end.

(** [sep in s] *)
Definition str_contains (sep s : string) : bool :=
  match str_partition sep s with Some _ => true | None => false end.

(** [s.split(sep)[1]], for [s] that contains [sep]: the piece between the
    first occurrence and the next one (or the end). *)
Definition str_split_1 (sep s : string) : py string :=
  match str_partition sep s with
  | None => raise (PyError "IndexError" "list index out of range")
  | Some (_, after) =>
      match str_partition sep after with
      | Some (piece, _) => ret piece
      | None => ret after
      end
  end.

(** ** Arrays and the external libraries *)

(** A numpy array: its shape and its elements in row-major order. *)
Record ndarray := { shape : list nat; pixels : list N }.

(** A torch tensor of box coordinates, as its rows. *)
Definition tensor := list (list float).

Definition numel (t : tensor) : Z := len (concat t).

(** [t[0].tolist() if t.numel() > 0 else []] *)
Definition first_row_or_empty (t : tensor) : list float :=
  if (0 <? numel t)%Z then
    match t with
    | r :: _ => r
    | [] => []
    end
  else [].

(** One element of [r.boxes]. *)
Record box := {
  cls : Z;
  conf : float;
  xywhn : tensor;
  xyxy : tensor
}.

(** One element of the list [model.predict] returns: [r.boxes] (which may be
    [None]) and the image [r.plot()] draws. *)
Record result := {
  boxes : option (list box);
  plot : ndarray
}.

(** The loaded detector: [model.predict(img, conf=c)] and [model.names]. *)
Record YOLO := {
  predict : ndarray -> float -> py (list result);
  names : gmap Z string
}.

(** Functions of cv2, base64, PIL and the interpreter that the handlers
    call. *)
Class Runtime := {
  cv2_cvtColor_RGB2BGR : ndarray -> ndarray;
  cv2_resize : ndarray -> nat * nat -> ndarray;
  (** [cv2.imencode('.jpg', img)[1].tobytes()] *)
  cv2_imencode_jpg : ndarray -> bytes;
  (** [base64.b64encode(buf).decode('utf-8')] *)
  b64encode : bytes -> string;
  b64decode : string -> py bytes;
  (** [np.array(Image.open(io.BytesIO(data)))] *)
  Image_open : bytes -> py ndarray;
  (** [str(e)] *)
  str_exn : exn -> string
}.

(** ** Pydantic models *)

Record DetectionRequest := {
  confidence : float;
  image : option string
}.

Record DetectionResponse := {
  success : bool;
  detections : list dict;
  count : Z;
  image_with_boxes : option string;
  message : string
}.

Record WebcamStatus := {
  active : bool;
  status_message : string
}.

Record UploadFile := {
  content_type : option string;
  contents : bytes
}.

(** What the client receives for a handler outcome: a returned value is a
    200; an [HTTPException] carries its own status; anything else goes to
    [global_exception_handler], which answers 500. *)
Definition http_status {A} (r : py A) : Z :=
  match r with
  | inr _ => 200
  | inl (HTTPException sc _) => sc
  | inl (PyError _ _) => 500
  end.

(** ** Detection handlers *)

Module Detection.
Section Detection.
Context {rt : Runtime}.
(** The global [model]: [None] when loading the weights failed. *)
Variable model : option YOLO.

(** Attribute access [model.predict] / [model.names]. *)
Definition the_model : py YOLO :=
  match model with
  | Some m => ret m
  | None => raise (PyError "AttributeError" "'NoneType' object has no attribute")
  end.

(** The dict built for one box; [model.names[int(box.cls)]] is evaluated
    first and raises KeyError for an unknown class id. *)
Definition box_detection (m : YOLO) (b : box) : py dict :=
  match names m !! cls b with
  | None => raise (PyError "KeyError" (pretty (cls b)))
  | Some name =>
      ret [ ("class", JStr name);
            ("class_id", JInt (cls b));
            ("confidence", JFloat (conf b));
            ("bbox", JFloats (first_row_or_empty (xywhn b)));
            ("bbox_pixels", JFloats (first_row_or_empty (xyxy b))) ]
  end.

(** [for box in boxes: detections.append({...})] *)
Fixpoint append_boxes (m : YOLO) (bs : list box) (detections : list dict)
  : py (list dict) :=
  match bs with
  | [] => ret detections
  | b :: bs' =>
      do detection <- box_detection m b;
      append_boxes m bs' (detections ++ [detection])
  end.

(** [for r in results: ...], threading [detections] and [result_image]. *)
Fixpoint collect_results (m : YOLO) (results : list result)
    (detections : list dict) (result_image : ndarray)
  : py (list dict * ndarray) :=
  match results with
  | [] => ret (detections, result_image)
  | r :: rs =>
      match boxes r with
      | Some bs =>
          do detections' <- append_boxes m bs detections;
          collect_results m rs detections' (plot r)
      | None => collect_results m rs detections result_image
      end
  end.

Definition is_rgb (img_np : ndarray) : bool :=
  bool_decide (length (shape img_np) = 3%nat) && bool_decide (shape img_np !! 2%nat = Some 3%nat).

(** [if len(img_np.shape) == 3 and img_np.shape[2] == 3:
       img_np = cv2.cvtColor(img_np, cv2.COLOR_RGB2BGR)] *)
Definition to_bgr (img_np : ndarray) : ndarray :=
  if is_rgb img_np then cv2_cvtColor_RGB2BGR img_np else img_np.

Definition process_detection (img_np : ndarray) (confidence : float)
  : py DetectionResponse :=
  try_except
    (let img_np := to_bgr img_np in
     do m <- the_model;
     do results <- predict m img_np confidence;
     do '(detections, result_image) <- collect_results m results [] img_np;
     let buffer := cv2_imencode_jpg result_image in
     let image_base64 := b64encode buffer in
     ret {| success := true;
            detections := detections;
            count := len detections;
            image_with_boxes := Some image_base64;
            message := match detections with
                       | [] => "Aucun objet détecté"
                       | _ :: _ => pretty (len detections) +:+ " objets détectés"
                       end |})
    (fun e => raise (HTTPException 500 ("Erreur traitement: " +:+ str_exn e))).

Definition model_not_loaded : exn := HTTPException 500 "Model not loaded".

(** [not request.image]: the field is [None] or the empty string. *)
Definition no_image (request : DetectionRequest) : bool :=
  match image request with
  | None => true
  | Some s => bool_decide (s = "")
  end.

(** The [try] body of [detect_image]. *)
Definition detect_image_body (request : DetectionRequest) : py DetectionResponse :=
  check raise_if (bool_decide (model = None)) model_not_loaded;
  check raise_if (no_image request) (HTTPException 400 "No image provided");
  let image_data := default "" (image request) in
  do image_data <- (if str_contains "base64," image_data
                    then str_split_1 "base64," image_data
                    else ret image_data);
  do image_bytes <- b64decode image_data;
  do img_np <- Image_open image_bytes;
  process_detection img_np (confidence request).

Definition detect_image (request : DetectionRequest) : py DetectionResponse :=
  try_except (detect_image_body request)
    (fun e => raise (HTTPException 500 (str_exn e))).

(** [file.content_type.startswith('image/')] *)
Definition is_image_type (file : UploadFile) : py bool :=
  match content_type file with
  | None => raise (PyError "AttributeError" "'NoneType' object has no attribute 'startswith'")
  | Some ct => ret (String.prefix "image/" ct)
  end.

(** The [try] body of [detect_upload]. *)
Definition detect_upload_body (file : UploadFile) (confidence : float)
  : py DetectionResponse :=
  check raise_if (bool_decide (model = None)) model_not_loaded;
  do is_img <- is_image_type file;
  check raise_if (negb is_img) (HTTPException 400 "File must be an image");
  do img_np <- Image_open (contents file);
  process_detection img_np confidence.

Definition detect_upload (file : UploadFile) (confidence : float)
  : py DetectionResponse :=
  try_except (detect_upload_body file confidence)
    (fun e => raise (HTTPException 500 (str_exn e))).

(** A result in which the detector reports no object. *)
Definition no_objects (r : result) : Prop :=
  boxes r = None \/ boxes r = Some [].

End Detection.
End Detection.

(** ** The webcam pipeline *)

Module Webcam.

(** What [cap.read()] returns: [(True, frame)] or [(False, None)]. *)
Inductive read_outcome :=
| ReadFrame (raw : ndarray)
| ReadNoData.

(** The local variable [cap] of one run of [webcam_stream_task]. *)
Inductive capture :=
| CapUnbound
| CapOpened
| CapReleased.

(** Where a thread running [webcam_stream_task] stands. *)
Inductive task_pc :=
| TaskOpen                      (* started, before [cv2.VideoCapture(...)] *)
| TaskWhile                     (* at [while camera_active:] *)
| TaskPublish (frame : ndarray) (* at [with camera_lock:], frame annotated *)
| TaskReturned                  (* after [cap.release()] and the print *)
| TaskFailed.                   (* after the [except] clause *)

Record task := {
  task_confidence : float;
  pc : task_pc;
  cap : capture
}.

(** Where a [generate_frames()] generator stands. *)
Inductive session_pc :=
| SessWhile    (* at [while camera_active:] *)
| SessYield    (* suspended at [yield], inside [with camera_lock:] *)
| SessSleep    (* at [await asyncio.sleep(0.1)], lock released *)
| SessDone.    (* the generator is exhausted *)

(** A stream session: the generator and the chunks it has yielded.  Each
    chunk is recorded with the number of frames the capture loop had
    published when it was yielded. *)
Record session := {
  spc : session_pc;
  emitted : list (bytes * nat)
}.

(** The module globals [camera_active], [current_frame], [camera_lock], with
    the threads started by [webcam_start], the generators created by
    [webcam_stream] and what was printed.  [camera_lock] is [Some j] while
    generator [j] is suspended inside its [with camera_lock:] block;
    [generation] counts the assignments to [current_frame]. *)
Record state := {
  camera_active : bool;
  current_frame : option ndarray;
  camera_lock : option nat;
  generation : nat;
  threads : list task;
  streams : list session;
  stdout : list string
}.

Definition init : state :=
  {| camera_active := false; current_frame := None; camera_lock := None;
     generation := 0; threads := []; streams := []; stdout := [] |}.

Definition set_camera_active (b : bool) (s : state) : state :=
  {| camera_active := b; current_frame := current_frame s;
     camera_lock := camera_lock s; generation := generation s;
     threads := threads s; streams := streams s; stdout := stdout s |}.

(** [current_frame = frame] *)
Definition set_current_frame (f : ndarray) (s : state) : state :=
  {| camera_active := camera_active s; current_frame := Some f;
     camera_lock := camera_lock s; generation := S (generation s);
     threads := threads s; streams := streams s; stdout := stdout s |}.

Definition set_camera_lock (o : option nat) (s : state) : state :=
  {| camera_active := camera_active s; current_frame := current_frame s;
     camera_lock := o; generation := generation s;
     threads := threads s; streams := streams s; stdout := stdout s |}.

Definition set_threads (ts : list task) (s : state) : state :=
  {| camera_active := camera_active s; current_frame := current_frame s;
     camera_lock := camera_lock s; generation := generation s;
     threads := ts; streams := streams s; stdout := stdout s |}.

Definition set_streams (xs : list session) (s : state) : state :=
  {| camera_active := camera_active s; current_frame := current_frame s;
     camera_lock := camera_lock s; generation := generation s;
     threads := threads s; streams := xs; stdout := stdout s |}.

Definition print (line : string) (s : state) : state :=
  {| camera_active := camera_active s; current_frame := current_frame s;
     camera_lock := camera_lock s; generation := generation s;
     threads := threads s; streams := streams s; stdout := stdout s ++ [line] |}.

Definition set_pc (p : task_pc) (t : task) : task :=
  {| task_confidence := task_confidence t; pc := p; cap := cap t |}.

Definition set_cap (c : capture) (t : task) : task :=
  {| task_confidence := task_confidence t; pc := pc t; cap := c |}.

Section Webcam.
Context {rt : Runtime}.
Variable model : option YOLO.

(** *** Lifecycle handlers *)

Definition already_active : dict :=
  [ ("status", JStr "already_active"); ("message", JStr "Webcam déjà active") ].

Definition started (confidence : float) : dict :=
  [ ("status", JStr "started"); ("message", JStr "Webcam démarrée");
    ("confidence", JFloat confidence) ].

Definition stopped : dict :=
  [ ("status", JStr "stopped"); ("message", JStr "Webcam arrêtée") ].

(** The thread object created by [threading.Thread(target=webcam_stream_task,
    args=(confidence,))] once started. *)
Definition new_task (confidence : float) : task :=
  {| task_confidence := confidence; pc := TaskOpen; cap := CapUnbound |}.

Definition webcam_start (confidence : float) (s : state) : state * py dict :=
  if camera_active s then (s, ret already_active)
  else if bool_decide (model = None) then (s, raise Detection.model_not_loaded)
  else (set_threads (threads s ++ [new_task confidence]) (set_camera_active true s),
        ret (started confidence)).

Definition webcam_stop (s : state) : state * dict :=
  (set_camera_active false s, stopped).

Definition webcam_status (s : state) : WebcamStatus :=
  {| active := camera_active s;
     status_message := if camera_active s then "Webcam active" else "Webcam inactive" |}.

(** *** Single frame *)

Definition not_active : exn := HTTPException 400 "Webcam not active".
Definition no_frame : exn := HTTPException 404 "No frame available".

(** [webcam_frame]; [now] is the value of [asyncio.get_event_loop().time()].
    The test of [camera_active] comes first; everything else is inside
    [with camera_lock:].  [None]: the handler gives no answer, being blocked
    in [camera_lock.acquire()] while a stream session holds the lock.  (The
    capture thread holds the lock for its assignment only, which is one
    step here: the handler runs before that step or after it.) *)
Definition webcam_frame (now : float) (s : state) : option (py dict) :=
  if negb (camera_active s) then Some (raise not_active)
  else match camera_lock s with
       | Some _ => None
       | None =>
           match current_frame s with
           | None => Some (raise no_frame)
           | Some frame =>
               let buffer := cv2_imencode_jpg frame in
               let image_base64 := b64encode buffer in
               Some (ret [ ("success", JBool true); ("image", JStr image_base64);
                           ("timestamp", JFloat now) ])
           end
       end.

(** [webcam_frame] answers at once when the webcam is inactive and
    otherwise has to acquire [camera_lock]. *)
Definition frame_enabled (s : state) : bool :=
  negb (camera_active s) || bool_decide (camera_lock s = None).

(** *** The capture thread *)

(** Resize, detect and draw: the frame that is then published. *)
Definition annotate (confidence : float) (raw : ndarray) : py ndarray :=
  let frame := cv2_resize raw (640%nat, 480%nat) in
  do m <- Detection.the_model model;
  do results <- predict m frame confidence;
  ret (fold_left (fun _ r => plot r) results frame).

(** Leaving the loop normally: [cap.release()] and the print. *)
Definition task_return (t : task) (s : state) : task * state :=
  (set_pc TaskReturned (set_cap CapReleased t),
   print "📹 Stream webcam arrêté" s).

(** The [except Exception as e] clause. *)
Definition task_except (e : exn) (t : task) (s : state) : task * state :=
  (set_pc TaskFailed t,
   set_camera_active false (print ("❌ Erreur webcam: " +:+ str_exn e) s)).

(** From the test of [while camera_active:] to the next point where the
    thread can be interrupted; [rd] is what [cap.read()] returns.  The
    loop is left when the flag is off or when nothing was read. *)
Definition task_loop (rd : read_outcome) (t : task) (s : state) : task * state :=
  if camera_active s then
    match rd with
    | ReadFrame raw =>
        match annotate (task_confidence t) raw with
        | inr frame => (set_pc (TaskPublish frame) t, s)
        | inl e => task_except e t s
        end
    | ReadNoData => task_return t s
    end
  else task_return t s.

(** A capture thread runs up to its [with camera_lock:] statement, or to its
    end; a thread that has just started opens the camera first.  [None]: the
    thread is not at such a point. *)
Definition task_capture (rd : read_outcome) (t : task) (s : state)
  : option (task * state) :=
  match pc t with
  | TaskOpen => Some (task_loop rd (set_cap CapOpened t) s)
  | TaskWhile => Some (task_loop rd t s)
  | TaskPublish _ | TaskReturned | TaskFailed => None
  end.

(** [with camera_lock: current_frame = frame], then [cv2.waitKey(100)].
    [None]: the thread waits for [camera_lock], or is not at that
    statement. *)
Definition task_publish (t : task) (s : state) : option (task * state) :=
  match pc t with
  | TaskPublish frame =>
      match camera_lock s with
      | Some _ => None
      | None => Some (set_pc TaskWhile t, set_current_frame frame s)
      end
  | TaskOpen | TaskWhile | TaskReturned | TaskFailed => None
  end.

(** [webcam_stream_task] run without interruption and with none of its
    library calls raising ([task_raise] is the step for a call that
    raises), [reads] being what the successive [cap.read()] calls return:
    it stops when it has ended, when it waits for [camera_lock], or when
    [reads] is used up. *)
Fixpoint webcam_stream_task (reads : list read_outcome) (t : task) (s : state)
  : task * state :=
  match reads with
  | [] => (t, s)
  | rd :: reads' =>
      match task_capture rd t s with
      | Some (t', s') =>
          match task_publish t' s' with
          | Some (t'', s'') => webcam_stream_task reads' t'' s''
          | None => (t', s')
          end
      | None => (t, s)
      end
  end.

(** An exception raised by one of the library calls of the [try] block
    ([cv2.VideoCapture], [cap.read], [cv2.resize], [r.plot], [cv2.waitKey],
    [cap.release]). *)
Definition task_raise (e : exn) (t : task) (s : state)
  : option (task * state) :=
  match pc t with
  | TaskOpen | TaskWhile => Some (task_except e t s)
  | TaskPublish _ | TaskReturned | TaskFailed => None
  end.

(** *** Stream sessions *)

Definition chunk (frame_data : bytes) : bytes :=
  "--frame" +:+ CRLF +:+ "Content-Type: image/jpeg" +:+ CRLF +:+ CRLF
  +:+ frame_data +:+ CRLF.

Definition set_spc (p : session_pc) (x : session) : session :=
  {| spc := p; emitted := emitted x |}.

Definition yield (c : bytes) (gen : nat) (x : session) : session :=
  {| spc := SessYield; emitted := emitted x ++ [(c, gen)] |}.

(** One resumption of the generator [generate_frames()] of session [j].
    From [SessWhile] it runs to the [yield] (keeping [camera_lock]) or to
    the sleep; resumed at [yield] it leaves the [with] block and reaches the
    sleep.  [None]: it waits for [camera_lock], or it is exhausted. *)
Definition generate_frames (j : nat) (x : session) (s : state)
  : option (session * state) :=
  match spc x with
  | SessWhile =>
      if camera_active s then
        match camera_lock s with
        | Some _ => None
        | None =>
            match current_frame s with
            | Some frame =>
                let frame_data := cv2_imencode_jpg frame in
                Some (yield (chunk frame_data) (generation s) x,
                      set_camera_lock (Some j) s)
            | None => Some (set_spc SessSleep x, s)
            end
        end
      else Some (set_spc SessDone x, s)
  | SessYield => Some (set_spc SessSleep x, set_camera_lock None s)
  | SessSleep => Some (set_spc SessWhile x, s)
  | SessDone => None
  end.

(** [webcam_stream]: a new generator, not yet resumed. *)
Definition webcam_stream (s : state) : state :=
  set_streams (streams s ++ [ {| spc := SessWhile; emitted := [] |} ]) s.

(** *** The system *)

Inductive event :=
| Start (confidence : float)
| Stop
| Frame (now : float)
| Stream
| Capture (i : nat) (rd : read_outcome)
| Publish (i : nat)
| TaskRaise (i : nat) (e : exn)
| Session (j : nat).

Definition step (ev : event) (s : state) : option state :=
  match ev with
  | Start confidence => Some (webcam_start confidence s).1
  | Stop => Some (webcam_stop s).1
  | Frame _ => if frame_enabled s then Some s else None
  | Stream => Some (webcam_stream s)
  | Capture i rd =>
      match threads s !! i with
      | Some t =>
          match task_capture rd t s with
          | Some (t', s') => Some (set_threads (<[i := t']> (threads s')) s')
          | None => None
          end
      | None => None
      end
  | Publish i =>
      match threads s !! i with
      | Some t =>
          match task_publish t s with
          | Some (t', s') => Some (set_threads (<[i := t']> (threads s')) s')
          | None => None
          end
      | None => None
      end
  | TaskRaise i e =>
      match threads s !! i with
      | Some t =>
          match task_raise e t s with
          | Some (t', s') => Some (set_threads (<[i := t']> (threads s')) s')
          | None => None
          end
      | None => None
      end
  | Session j =>
      match streams s !! j with
      | Some x =>
          match generate_frames j x s with
          | Some (x', s') => Some (set_streams (<[j := x']> (streams s')) s')
          | None => None
          end
      | None => None
      end
  end.

Fixpoint run (evs : list event) (s : state) : option state :=
  match evs with
  | [] => Some s
  | ev :: evs' =>
      match step ev s with
      | Some s' => run evs' s'
      | None => None
      end
  end.

Inductive reachable : state -> Prop :=
| reachable_init : reachable init
| reachable_step s ev s' : reachable s -> step ev s = Some s' -> reachable s'.

(** A thread that has not ended. *)
Definition alive (t : task) : bool :=
  match pc t with
  | TaskOpen | TaskWhile | TaskPublish _ => true
  | TaskReturned | TaskFailed => false
  end.

Definition live (ts : list task) : nat :=
  length (filter (fun t => alive t = true) ts).

(** The number of capture loops that exist. *)
Definition capture_loops (s : state) : nat := live (threads s).

Definition is_stop (ev : event) : bool :=
  match ev with Stop => true | _ => false end.


(** [raises_in_loop s i e ev]: in state [s], event [ev] is a resumption of
    capture thread [i] during which exception [e] is raised inside the
    [try] block, by a library call or by the detector. *)
Inductive raises_in_loop (s : state) (i : nat) (e : exn) : event -> Prop :=
| raise_in_library t :
    threads s !! i = Some t ->
    pc t = TaskOpen \/ pc t = TaskWhile ->
    raises_in_loop s i e (TaskRaise i e)
| raise_in_detector t raw :
    threads s !! i = Some t ->
    pc t = TaskOpen \/ pc t = TaskWhile ->
    camera_active s = true ->
    annotate (task_confidence t) raw = raise e ->
    raises_in_loop s i e (Capture i (ReadFrame raw)).

(** The generations of the chunks a session has emitted, oldest first. *)
Definition generations (x : session) : list nat := (emitted x).*2.

(** Each element is at most its successor. *)
Definition nondecreasing (l : list nat) : Prop :=
  forall i a b, l !! i = Some a -> l !! S i = Some b -> a <= b.

(** [camera_lock] is held by generator [j] exactly when [j] is suspended at
    its [yield]. *)
Definition lock_at_yield (s : state) : Prop :=
  forall j, camera_lock s = Some j <->
            exists x, streams s !! j = Some x /\ spc x = SessYield.

(** The generations emitted by every session are nondecreasing and bounded
    by the current generation. *)
Definition emitted_in_order (s : state) : Prop :=
  forall j x, streams s !! j = Some x ->
    nondecreasing (generations x) /\ Forall (fun g => g <= generation s) (generations x).

(** The webcam is active and the state has one stream session, which has
    not finished and holds the lock only at its [yield]. *)
Definition streaming (s : state) : Prop :=
  camera_active s = true /\
  exists x, streams s = [x] /\ spc x <> SessDone /\
            (spc x <> SessYield -> camera_lock s = None).

(** Without a live capture loop when the webcam is inactive, and never more
    than one. *)
Definition single_loop (s : state) : Prop :=
  (camera_active s = false -> capture_loops s = 0) /\ capture_loops s <= 1.

End Webcam.
End Webcam.

(** ** What the detection loop computes *)

(** The boxes of all results, in the order the two nested loops visit
    them; a result whose [boxes] is [None] contributes none. *)
Definition all_boxes (results : list result) : list box :=
  concat (map (fun r => default [] (boxes r)) results).

(** The image of the last result that has boxes, [img] if there is none. *)
Definition last_plot (results : list result) (img : ndarray) : ndarray :=
  fold_left (fun acc r => match boxes r with Some _ => plot r | None => acc end)
            results img.

(** The first box whose class id is not a key of [model.names]. *)
Fixpoint first_unknown (m : YOLO) (bs : list box) : option box :=
  match bs with
  | [] => None
  | b :: bs' =>
      match names m !! cls b with
      | None => Some b
      | Some _ => first_unknown m bs'
      end
  end.

(** [d] is the dict the loop builds for box [b]. *)
Definition detection_of (m : YOLO) (d : dict) (b : box) : Prop :=
  exists name,
    names m !! cls b = Some name /\
    d = [ ("class", JStr name);
          ("class_id", JInt (cls b));
          ("confidence", JFloat (conf b));
          ("bbox", JFloats (first_row_or_empty (xywhn b)));
          ("bbox_pixels", JFloats (first_row_or_empty (xyxy b))) ].

(** No character of [s] is a comma. *)
Definition comma_free (s : string) : Prop :=
  forall n, String.get n s <> Some ","%char.

(** ** Stored videos *)

Module Videos.

(** What [cv2.VideoCapture(path)] gives for a stored video: whether it
    opened, and what its first [read()] returns. *)
Record video := {
  isOpened : bool;
  first_read : Webcam.read_outcome
}.

(** The [settings] module, the file system and the interpreter, as far as
    the video routes use them. *)
Class Storage := {
  (** The items of [settings.VIDEOS_DICT] in insertion order, each path
      as [str(path)]. *)
  VIDEOS_DICT : list (string * string);
  (** [Path(path).exists()] *)
  path_exists : string -> bool;
  (** [cv2.VideoCapture(str(video_path))] *)
  VideoCapture : string -> video;
  (** [str.title] *)
  str_title : string -> string
}.

(** [d[key]] for a dict given by its items; [None] when [key not in d]. *)
Fixpoint dict_get (key : string) (items : list (string * string)) : option string :=
  match items with
  | [] => None
  | (k, v) :: items' => if bool_decide (k = key) then Some v else dict_get key items'
  end.

(** [s.replace(old, new)] for single characters. *)
Fixpoint str_replace (old new : ascii) (s : string) : string :=
  match s with
  | EmptyString => EmptyString
  | String c s' =>
      String (if bool_decide (c = old) then new else c) (str_replace old new s')
  end.

Section Videos.
Context {rt : Runtime} {st : Storage}.
Variable model : option YOLO.

Definition video_entry (name path : string) : dict :=
  [ ("name", JStr name);
    ("path", JStr path);
    ("display_name", JStr (str_title (str_replace "_" " " name))) ].

(** The list under the key ["videos"] of the answer of [list_videos]. *)
Fixpoint list_videos_of (items : list (string * string)) : list dict :=
  match items with
  | [] => []
  | (name, path) :: items' =>
      if path_exists path
      then video_entry name path :: list_videos_of items'
      else list_videos_of items'
  end.

Definition list_videos : list dict := list_videos_of VIDEOS_DICT.

Definition video_not_found : exn := HTTPException 404 "Video not found".
Definition cannot_open : exn := HTTPException 400 "Cannot open video".
Definition cannot_read : exn := HTTPException 400 "Cannot read video frame".

(** The [try] body of [detect_video]: its outcome, and whether
    [cap.release()] was called. *)
Definition detect_video_body (video_name : string) (confidence : float)
  : py DetectionResponse * bool :=
  if bool_decide (model = None) then (raise Detection.model_not_loaded, false)
  else match dict_get video_name VIDEOS_DICT with
       | None => (raise video_not_found, false)
       | Some video_path =>
           let cap := VideoCapture video_path in
           if negb (isOpened cap) then (raise cannot_open, false)
           else match first_read cap with
                | Webcam.ReadFrame frame =>
                    match Detection.process_detection model frame confidence with
                    | inr response => (ret response, true)
                    | inl e => (raise e, false)
                    end
                | Webcam.ReadNoData => (raise cannot_read, true)
                end
       end.

Definition detect_video (video_name : string) (confidence : float)
  : py DetectionResponse :=
  try_except (detect_video_body video_name confidence).1
    (fun e => raise (HTTPException 500 (str_exn e))).

End Videos.
End Videos.

(** ** Further notions *)

(** What a detection route can answer: a response that reports success, or
    a 500. *)
Definition ok_or_500 (r : py DetectionResponse) : Prop :=
  (exists resp, r = ret resp /\ success resp = true) \/
  (exists detail, r = raise (HTTPException 500 detail)).

(** A decidable test for [comma_free]. *)
Fixpoint has_no_comma (s : string) : bool :=
  match s with
  | EmptyString => true
  | String c s' => negb (bool_decide (c = ","%char)) && has_no_comma s'
  end.

(** The slot is empty exactly as long as nothing was published. *)
Definition slot_filled (s : Webcam.state) : Prop :=
  Webcam.current_frame s = None <-> Webcam.generation s = 0.

(** Every chunk was emitted after at least one publish. *)
Definition emitted_after_publish (s : Webcam.state) : Prop :=
  forall j x, Webcam.streams s !! j = Some x ->
    Forall (fun g => 1 <= g) (Webcam.generations x).

(** The state of a thread's camera handle goes with its program point:
    unbound before the camera is opened, open inside the loop, released
    after a normal exit, and not released after the [except] clause. *)
Definition handle_matches (t : Webcam.task) : Prop :=
  match Webcam.pc t with
  | Webcam.TaskOpen => Webcam.cap t = Webcam.CapUnbound
  | Webcam.TaskWhile | Webcam.TaskPublish _ => Webcam.cap t = Webcam.CapOpened
  | Webcam.TaskReturned => Webcam.cap t = Webcam.CapReleased
  | Webcam.TaskFailed => Webcam.cap t <> Webcam.CapReleased
  end.

(** The events of a capture thread that reads and publishes the frames
    [raws] one after the other. *)
Definition loop_events (i : nat) (raws : list ndarray) : list Webcam.event :=
  flat_map (fun raw => [Webcam.Capture i (Webcam.ReadFrame raw); Webcam.Publish i]) raws.

(** The webcam was never switched on. *)
Definition never_started (s : Webcam.state) : Prop :=
  Webcam.camera_active s = false /\ Webcam.threads s = [] /\
  Webcam.current_frame s = None.

(** ** A concrete runtime, detector and camera frames

    Used to evaluate the handlers and the pipeline on explicit inputs. *)

Module Sample.

Definition checksum (img : ndarray) : N := fold_right N.add 0%N (pixels img).

Definition runtime : Runtime := {|
  cv2_cvtColor_RGB2BGR img := {| shape := shape img; pixels := rev (pixels img) |};
  cv2_resize img size := {| shape := [size.2; size.1; 3%nat]; pixels := pixels img |};
  cv2_imencode_jpg img := "JFIF" +:+ pretty (checksum img);
  b64encode buf := "b64:" +:+ buf;
  b64decode s := ret s;
  Image_open data := ret {| shape := [1%nat; 1%nat; 3%nat]; pixels := [N.of_nat (String.length data)] |};
  str_exn e := match e with
               | HTTPException sc d => pretty sc +:+ ": " +:+ d
               | PyError _ msg => msg
               end
|}.

(** A detector that finds nothing: one result, no boxes, the image
    unchanged. *)
Definition blind : YOLO :=
  {| predict img _ := ret [ {| boxes := Some []; plot := img |} ];
     names := {[ 0%Z := "plastic" ]} |}.

(** A detector that finds one plastic item in every image. *)
Definition one_box : box :=
  {| cls := 0; conf := 0.75%float;
     xywhn := [[0.5; 0.5; 0.25; 0.25]%float];
     xyxy := [[240; 180; 400; 300]%float] |}.

Definition keen : YOLO :=
  {| predict img _ := ret [ {| boxes := Some [one_box]; plot := img |} ];
     names := {[ 0%Z := "plastic" ]} |}.

Definition raw1 : ndarray := {| shape := [2%nat; 2%nat; 3%nat]; pixels := [1; 2; 3]%N |}.
Definition raw2 : ndarray := {| shape := [2%nat; 2%nat; 3%nat]; pixels := [4; 5; 6]%N |}.

(** [raw1] as the capture loop publishes it. *)
Definition frame1 : ndarray := {| shape := [480%nat; 640%nat; 3%nat]; pixels := [1; 2; 3]%N |}.

Definition model : option YOLO := Some blind.

(** A detect-inline request without image and an upload that is not an
    image. *)
Definition no_image_request : DetectionRequest :=
  {| confidence := 0.5%float; image := None |}.

Definition text_upload : UploadFile :=
  {| content_type := Some "text/plain"; contents := "hello" |}.

(** One capture thread with confidence 0.5. *)
Definition thread (p : Webcam.task_pc) (c : Webcam.capture) : Webcam.task :=
  {| Webcam.task_confidence := 0.5%float; Webcam.pc := p; Webcam.cap := c |}.

(** Started, the loop running, nothing published yet. *)
Definition waiting : Webcam.state :=
  {| Webcam.camera_active := true; Webcam.current_frame := None;
     Webcam.camera_lock := None; Webcam.generation := 0;
     Webcam.threads := [thread Webcam.TaskOpen Webcam.CapUnbound];
     Webcam.streams := []; Webcam.stdout := [] |}.

(** The loop has published [frame1] once. *)
Definition showing : Webcam.state :=
  {| Webcam.camera_active := true; Webcam.current_frame := Some frame1;
     Webcam.camera_lock := None; Webcam.generation := 1;
     Webcam.threads := [thread Webcam.TaskWhile Webcam.CapOpened];
     Webcam.streams := []; Webcam.stdout := [] |}.

(** [start], one frame read and annotated. *)
Definition to_publish : list Webcam.event :=
  [Webcam.Start 0.5%float; Webcam.Capture 0 (Webcam.ReadFrame raw1)].

(** [start] and one frame published. *)
Definition to_showing : list Webcam.event := to_publish ++ [Webcam.Publish 0].

Definition device_error : exn := PyError "cv2.error" "can't grab frame".

(** A detector that reports a box of a class that [names] does not know,
    after a known one. *)
Definition stray_box : box :=
  {| cls := 7; conf := 0.5%float; xywhn := []; xyxy := [] |}.

Definition stray : YOLO :=
  {| predict img _ := ret [ {| boxes := Some [one_box; stray_box]; plot := img |} ];
     names := {[ 0%Z := "plastic" ]} |}.

(** A detector whose [predict] raises. *)
Definition out_of_memory : exn := PyError "RuntimeError" "out of memory".

Definition broken : YOLO :=
  {| predict _ _ := raise out_of_memory; names := ∅ |}.

(** Two configured videos, of which only the first is on disk. *)
Definition storage : Videos.Storage := {|
  Videos.VIDEOS_DICT := [ ("video_1", "videos/video_1.mp4");
                          ("video_2", "videos/video_2.mp4") ];
  Videos.path_exists p := bool_decide (p = "videos/video_1.mp4");
  Videos.VideoCapture p :=
    if bool_decide (p = "videos/video_1.mp4")
    then {| Videos.isOpened := true; Videos.first_read := Webcam.ReadFrame raw1 |}
    else {| Videos.isOpened := false; Videos.first_read := Webcam.ReadNoData |};
  Videos.str_title name := name
|}.

(** [raw2] as the capture loop publishes it. *)
Definition frame2 : ndarray :=
  {| shape := [480%nat; 640%nat; 3%nat]; pixels := [4; 5; 6]%N |}.


(** The chunk that carries [frame1]. *)
Definition chunk1 : bytes :=
  Webcam.chunk (cv2_imencode_jpg (Runtime := runtime) frame1).

(** A stream session that has emitted [frame1] once and is about to poll
    again. *)
Definition viewer : Webcam.session :=
  {| Webcam.spc := Webcam.SessWhile; Webcam.emitted := [(chunk1, 1)] |}.

(** [showing] with that session. *)
Definition polled : Webcam.state := Webcam.set_streams [viewer] showing.

(** [start], one frame published, then a stream opened and its generator
    resumed three times: to its [yield], to its sleep, to its loop test. *)
Definition to_polled : list Webcam.event :=
  to_showing ++ [Webcam.Stream; Webcam.Session 0; Webcam.Session 0; Webcam.Session 0].

End Sample.

(** * Properties of the detection handlers *)

Section DetectionFacts.
Context {rt : Runtime}.
Variable model : option YOLO.

Import Detection.

Lemma collect_no_objects m results detections result_image :
  Forall no_objects results ->
  exists img, collect_results m results detections result_image = ret (detections, img).
Proof.
  intros Hall. revert detections result_image.
  induction Hall as [|r rs [Hr|Hr] _ IH]; intros detections result_image; simpl.
  - by exists result_image.
  - rewrite Hr. apply IH.
  - rewrite Hr. simpl. apply IH.
Qed.

(** C8: when the detector reports zero objects on a valid image, the
    response has an empty detection list, count 0, success true and the
    message "Aucun objet détecté". *)
Theorem zero_objects_response m img_np confidence results :
  model = Some m ->
  predict m (to_bgr img_np) confidence = ret results ->
  Forall no_objects results ->
  exists resp,
    process_detection model img_np confidence = ret resp /\
    detections resp = [] /\ count resp = 0%Z /\ success resp = true /\
    message resp = "Aucun objet détecté".
Proof.
  intros Hm Hp Hall.
  destruct (collect_no_objects m results [] (to_bgr img_np) Hall) as [img Himg].
  unfold process_detection, the_model. rewrite Hm. simpl.
  rewrite Hp. simpl. rewrite Himg. simpl.
  eexists. split; [reflexivity|]. by simpl.
Qed.

(** C9: every response the pipeline returns has success true, count equal
    to the number of detections, and the message that goes with that
    count. *)
Theorem response_matches_detections img_np confidence resp :
  process_detection model img_np confidence = ret resp ->
  success resp = true /\
  count resp = len (detections resp) /\
  ((0 < count resp)%Z -> message resp = pretty (count resp) +:+ " objets détectés") /\
  (count resp = 0%Z -> message resp = "Aucun objet détecté").
Proof.
  unfold process_detection, try_except, ret.
  destruct (bind _ _) as [e|r] eqn:Hbody; [discriminate|].
  intros [= <-].
  unfold bind in Hbody.
  destruct the_model as [|m]; [discriminate|].
  destruct (predict _ _ _) as [|results]; [discriminate|].
  destruct (collect_results _ _ _ _) as [|[ds img]]; [discriminate|].
  injection Hbody as <-. simpl.
  repeat split.
  - destruct ds; [unfold len; simpl; lia | done].
  - destruct ds; [done | unfold len; simpl; lia].
Qed.

(** C10: a detect-inline request without image, and a detect-upload
    request whose content type does not start with "image/", are answered
    with status 500: the handler's own [except Exception] clause catches
    the exception raised in the [try] body (the 400 [HTTPException] when
    the model is loaded) and raises a 500 whose detail is its [str]. *)
Theorem rejection_reaches_client_as_500 :
  (forall request, no_image request = true ->
     exists e,
       detect_image_body model request = raise e /\
       detect_image model request = raise (HTTPException 500 (str_exn e)) /\
       http_status (detect_image model request) = 500%Z /\
       (model <> None -> e = HTTPException 400 "No image provided")) /\
  (forall file confidence,
     (forall ct, content_type file = Some ct -> String.prefix "image/" ct = false) ->
     exists e,
       detect_upload_body model file confidence = raise e /\
       detect_upload model file confidence = raise (HTTPException 500 (str_exn e)) /\
       http_status (detect_upload model file confidence) = 500%Z /\
       (model <> None -> is_Some (content_type file) ->
        e = HTTPException 400 "File must be an image")).
Proof.
  split.
  - intros request Hno.
    unfold detect_image, detect_image_body.
    destruct model as [m|]; simpl.
    + rewrite Hno. simpl. eexists. repeat split.
    + eexists. repeat split. intros H. by destruct H.
  - intros file confidence Hct.
    unfold detect_upload, detect_upload_body, is_image_type.
    destruct model as [m|]; simpl.
    + destruct (content_type file) as [ct|] eqn:Ect; simpl.
      * rewrite (Hct ct eq_refl). simpl. eexists. repeat split.
      * eexists. repeat split. intros _ [ct Hsome]. discriminate.
    + eexists. repeat split. intros H. by destruct H.
Qed.

End DetectionFacts.

(** * The detection loop, the data URI and the routes *)

Section DetectionLoop.
Context {rt : Runtime}.
Variable model : option YOLO.

Import Detection.

Lemma first_unknown_app m bs1 bs2 :
  first_unknown m (bs1 ++ bs2) =
  match first_unknown m bs1 with
  | Some b => Some b
  | None => first_unknown m bs2
  end.
Proof.
  induction bs1 as [|b bs1 IH]; simpl; [done|].
  by destruct (names m !! cls b).
Qed.

(** The inner loop appends one dict per box, or raises the KeyError of the
    first unknown class id. *)
Lemma append_boxes_spec m bs acc :
  match first_unknown m bs with
  | Some b => append_boxes m bs acc = raise (PyError "KeyError" (pretty (cls b)))
  | None => exists ds, append_boxes m bs acc = ret (acc ++ ds)%list /\
                       Forall2 (detection_of m) ds bs
  end.
Proof.
  revert acc. induction bs as [|b bs IH]; intros acc; simpl.
  - exists []. by rewrite app_nil_r.
  - unfold box_detection. destruct (names m !! cls b) as [name|] eqn:Hname; simpl; [|done].
    specialize (IH (acc ++ [ [("class", JStr name); ("class_id", JInt (cls b));
      ("confidence", JFloat (conf b));
      ("bbox", JFloats (first_row_or_empty (xywhn b)));
      ("bbox_pixels", JFloats (first_row_or_empty (xyxy b)))] ])%list).
    destruct (first_unknown m bs) as [b'|]; [done|].
    destruct IH as (ds & Hds & Hall). eexists (_ :: ds). split.
    + etrans; [exact Hds|]. by rewrite <- app_assoc.
    + constructor; [|done]. by exists name.
Qed.

(** The outer loop likewise, over the boxes of all results. *)
Lemma collect_results_spec m results acc img :
  match first_unknown m (all_boxes results) with
  | Some b =>
      collect_results m results acc img = raise (PyError "KeyError" (pretty (cls b)))
  | None =>
      exists ds, collect_results m results acc img
                 = ret ((acc ++ ds)%list, last_plot results img) /\
                 Forall2 (detection_of m) ds (all_boxes results)
  end.
Proof.
  revert acc img. induction results as [|r rs IH]; intros acc img; simpl.
  - exists []. by rewrite app_nil_r.
  - unfold all_boxes. simpl. fold (all_boxes rs). rewrite first_unknown_app.
    unfold last_plot. simpl. fold last_plot.
    destruct (boxes r) as [bs|] eqn:Hbs; simpl.
    + pose proof (append_boxes_spec m bs acc) as Hin.
      destruct (first_unknown m bs) as [b|].
      * by rewrite Hin.
      * destruct Hin as (ds1 & -> & Hall1). simpl.
        specialize (IH (acc ++ ds1)%list (plot r)).
        destruct (first_unknown m (all_boxes rs)) as [b|]; [done|].
        destruct IH as (ds2 & -> & Hall2).
        exists (ds1 ++ ds2)%list. rewrite app_assoc. split; [done|].
        by apply Forall2_app.
    + apply IH.
Qed.

(** X1: when the detector answers and every class id it reports is a key
    of [model.names], the pipeline succeeds with one detection per box, in
    the order of the results and of their boxes; the count is the number of
    boxes, and the image returned is the plot of the last result that has
    boxes (the converted input if none has). *)
Theorem detections_follow_boxes m img_np confidence results :
  model = Some m ->
  predict m (to_bgr img_np) confidence = ret results ->
  first_unknown m (all_boxes results) = None ->
  exists resp,
    process_detection model img_np confidence = ret resp /\
    Forall2 (detection_of m) (detections resp) (all_boxes results) /\
    count resp = len (all_boxes results) /\
    image_with_boxes resp
    = Some (b64encode (cv2_imencode_jpg (last_plot results (to_bgr img_np)))).
Proof.
  intros Hm Hp Hknown.
  pose proof (collect_results_spec m results [] (to_bgr img_np)) as Hc.
  rewrite Hknown in Hc. destruct Hc as (ds & Hc & Hall).
  unfold process_detection, the_model. rewrite Hm. simpl. rewrite Hp. simpl.
  rewrite Hc. simpl. eexists. split; [done|]. simpl.
  split; [done|]. split; [|done].
  unfold len. f_equal. by eapply Forall2_length.
Qed.

(** X2: one box with a class id that is not a key of [model.names] makes
    the whole request fail: the pipeline raises a 500 whose detail carries
    the KeyError of the first such box, and no detection is returned. *)
Theorem unknown_class_fails_request m img_np confidence results b :
  model = Some m ->
  predict m (to_bgr img_np) confidence = ret results ->
  first_unknown m (all_boxes results) = Some b ->
  process_detection model img_np confidence
  = raise (HTTPException 500
             ("Erreur traitement: " +:+ str_exn (PyError "KeyError" (pretty (cls b))))).
Proof.
  intros Hm Hp Hunknown.
  pose proof (collect_results_spec m results [] (to_bgr img_np)) as Hc.
  rewrite Hunknown in Hc.
  unfold process_detection, the_model. rewrite Hm. simpl. rewrite Hp. simpl.
  by rewrite Hc.
Qed.

(** ** The data URI *)

Lemma app_String c s1 s2 : String c s1 +:+ s2 = String c (s1 +:+ s2).
Proof. reflexivity. Qed.

Lemma prefix_app_same p r : String.prefix p (p +:+ r) = true.
Proof.
  induction p as [|c p IH]; simpl; [by destruct r|].
  by destruct (ascii_dec c c).
Qed.

Lemma prefix_app_mono p x y :
  String.prefix p x = true -> String.prefix p (x +:+ y) = true.
Proof.
  revert x. induction p as [|c p IH]; intros x; simpl; [by destruct (x +:+ y)|].
  destruct x as [|d x]; simpl; [done|].
  destruct (ascii_dec c d); [apply IH | done].
Qed.

Lemma prefix_split p s :
  String.prefix p s = true -> s = p +:+ str_drop (String.length p) s.
Proof.
  revert s. induction p as [|c p IH]; intros s; simpl; [by destruct s|].
  destruct s as [|d s]; simpl; [done|].
  destruct (ascii_dec c d) as [->|]; [|done].
  intros H. rewrite app_String. f_equal. by apply IH.
Qed.

Lemma prefix_nil sep : sep <> "" -> String.prefix sep "" = false.
Proof. by destruct sep. Qed.

Lemma str_partition_unfold sep s :
  str_partition sep s =
  if String.prefix sep s then Some ("", str_drop (String.length sep) s)
  else match s with
       | EmptyString => None
       | String c s' =>
           match str_partition sep s' with
           | Some (before, after) => Some (String c before, after)
           | None => None
           end
       end.
Proof. by destruct s. Qed.

(** [str_partition] cuts at an occurrence of the separator. *)
Lemma str_partition_sound sep s a b :
  str_partition sep s = Some (a, b) -> s = a +:+ sep +:+ b.
Proof.
  revert a. induction s as [|c s IH]; intros a; rewrite str_partition_unfold;
    destruct (String.prefix sep _) eqn:Hp;
    try (intros [= <- <-]; by apply prefix_split).
  destruct (str_partition sep s) as [[a' b']|]; [|done].
  intros [= <- <-]. rewrite app_String. f_equal. by apply IH.
Qed.

(** The occurrence is the first one. *)
Lemma str_partition_first sep s a b :
  sep <> "" -> str_partition sep s = Some (a, b) -> str_contains sep a = false.
Proof.
  intros Hsep. unfold str_contains.
  revert a. induction s as [|c s IH]; intros a Hs;
    pose proof (str_partition_sound _ _ _ _ Hs) as Heq;
    rewrite str_partition_unfold in Hs;
    destruct (String.prefix sep _) eqn:Hp;
    try (injection Hs as <- <-; rewrite str_partition_unfold, prefix_nil by done; done);
    try done.
  destruct (str_partition sep s) as [[a' b']|] eqn:Hs'; [|done].
  injection Hs as <- ->. rewrite str_partition_unfold.
  destruct (String.prefix sep (String c a')) eqn:Hp'.
  - apply (prefix_app_mono _ _ (sep +:+ b)) in Hp'.
    rewrite <- Heq in Hp'. congruence.
  - specialize (IH a' eq_refl). by destruct (str_partition sep a') as [[? ?]|].
Qed.

(** X3: what [split('base64,')[1]] keeps of an image text is the piece
    that follows the first marker and ends before the next one (or at the
    end of the text): the text before it holds no marker, the piece holds
    none, and whatever follows the piece starts with a marker. *)
Theorem split_piece_between_markers s piece :
  str_split_1 "base64," s = ret piece ->
  exists before rest,
    s = before +:+ "base64," +:+ piece +:+ rest /\
    str_contains "base64," before = false /\
    str_contains "base64," piece = false /\
    (rest = "" \/ String.prefix "base64," rest = true).
Proof.
  unfold str_split_1.
  destruct (str_partition "base64," s) as [[before after]|] eqn:H1; [|done].
  pose proof (str_partition_sound _ _ _ _ H1) as E1.
  pose proof (str_partition_first "base64," _ _ _ ltac:(discriminate) H1) as F1.
  destruct (str_partition "base64," after) as [[piece' after']|] eqn:H2.
  - intros [= <-].
    pose proof (str_partition_sound _ _ _ _ H2) as E2.
    pose proof (str_partition_first "base64," _ _ _ ltac:(discriminate) H2) as F2.
    exists before, ("base64," +:+ after'). subst s after.
    split; [done|]. split; [done|]. split; [done|]. right. apply prefix_app_same.
  - intros [= <-]. exists before, "". subst s.
    split; [|split; [done|split; [|by left]]].
    + f_equal. f_equal. clear. induction after as [|c x IH]; [done|].
      rewrite app_String. by f_equal.
    + unfold str_contains. by rewrite H2.
Qed.

Lemma has_no_comma_sound s : has_no_comma s = true -> comma_free s.
Proof.
  induction s as [|c s IH]; simpl; intros H n.
  - by destruct n.
  - apply andb_prop in H as [Hc Hs]. destruct n as [|n]; simpl.
    + intros [= ->]. by rewrite bool_decide_eq_true_2 in Hc.
    + by apply IH.
Qed.

(** Up to the comma of the marker, a text whose head is comma free holds
    no comma. *)
Lemma no_comma_before_marker before payload n :
  comma_free before -> n < String.length before + 6 ->
  String.get n (before +:+ "base64," +:+ payload) <> Some ","%char.
Proof.
  revert n. induction before as [|c x IH]; intros n Hfree Hn.
  - simpl in Hn. do 6 (destruct n as [|n]; [done|]). lia.
  - destruct n as [|n]; [apply (Hfree 0)|].
    rewrite app_String. simpl. apply IH; [|simpl in Hn; lia].
    intros k. apply (Hfree (S k)).
Qed.

Lemma marker_comma s :
  String.prefix "base64," s = true -> String.get 6 s = Some ","%char.
Proof. intros H. rewrite (prefix_split _ _ H). reflexivity. Qed.

Lemma comma_free_partition before payload :
  comma_free before ->
  str_partition "base64," (before +:+ "base64," +:+ payload) = Some (before, payload).
Proof.
  induction before as [|c x IH]; intros Hfree.
  - change ("" +:+ "base64," +:+ payload) with ("base64," +:+ payload).
    by rewrite str_partition_unfold, prefix_app_same.
  - rewrite str_partition_unfold.
    destruct (String.prefix _ _) eqn:Hp.
    + apply marker_comma in Hp.
      exfalso. eapply (no_comma_before_marker (String c x) payload 6); [done| |done].
      simpl. lia.
    + rewrite app_String, IH; [done|]. intros k. apply (Hfree (S k)).
Qed.

Lemma comma_free_no_marker s : comma_free s -> str_contains "base64," s = false.
Proof.
  intros Hfree. unfold str_contains.
  destruct (str_partition "base64," s) as [[a b]|] eqn:Hs; [|done].
  apply str_partition_sound in Hs. exfalso. apply (Hfree (6 + String.length a)).
  rewrite Hs, <- append_correct2. reflexivity.
Qed.

(** X4: the prefix of a data URI is stripped before decoding: when
    neither the text before the marker nor the payload holds a comma and
    the payload decodes to an image, [detect_image], given
    [before + 'base64,' + payload], runs the detection pipeline on the image
    decoded from [payload] alone and answers with its outcome (an error of
    the pipeline going through the handler's own [except] clause). *)
Theorem data_uri_prefix_is_stripped m before payload confidence image_bytes img_np :
  model = Some m ->
  comma_free before -> comma_free payload ->
  b64decode payload = ret image_bytes ->
  Image_open image_bytes = ret img_np ->
  detect_image model
    {| confidence := confidence; image := Some (before +:+ "base64," +:+ payload) |}
  = try_except (process_detection model img_np confidence)
      (fun e => raise (HTTPException 500 (str_exn e))).
Proof.
  intros Hm Hb Hp Hdec Himg. unfold detect_image, detect_image_body. f_equal.
  rewrite Hm. simpl. unfold no_image. simpl.
  rewrite bool_decide_eq_false_2; [|by destruct before].
  simpl. unfold str_contains, str_split_1.
  rewrite (comma_free_partition before payload Hb).
  pose proof (comma_free_no_marker payload Hp) as Hno. unfold str_contains in Hno.
  destruct (str_partition "base64," payload); [done|]. simpl.
  rewrite Hdec. simpl. by rewrite Himg.
Qed.

(** ** What the routes answer *)

Lemma bind_ret_inv {A B} (m : py A) (k : A -> py B) b :
  bind m k = ret b -> exists a, m = ret a /\ k a = ret b.
Proof. destruct m as [e|a]; [done|]. intros H. by exists a. Qed.

(** X5: when the detector raises inside a detect-inline request, the
    client gets a 500 whose detail is the string form of the pipeline's own
    500 exception, which in turn carries the string form of the detector's
    error after "Erreur traitement: ". *)
Theorem pipeline_failure_is_wrapped_twice m request data img_np e :
  model = Some m ->
  image request = Some data -> data <> "" ->
  str_contains "base64," data = false ->
  (do image_bytes <- b64decode data; Image_open image_bytes) = ret img_np ->
  predict m (to_bgr img_np) (confidence request) = raise e ->
  detect_image model request
  = raise (HTTPException 500
             (str_exn (HTTPException 500 ("Erreur traitement: " +:+ str_exn e)))).
Proof.
  intros Hm Hdata Hne Hno Hdec Hp.
  unfold detect_image, detect_image_body, no_image. rewrite Hm, Hdata. simpl.
  rewrite bool_decide_eq_false_2 by done. simpl. rewrite Hno. simpl.
  apply bind_ret_inv in Hdec as (image_bytes & Hb & Hi).
  rewrite Hb. simpl. rewrite Hi. simpl.
  unfold process_detection, the_model. simpl. by rewrite Hp.
Qed.

Lemma process_detection_ok_or_500 img_np confidence :
  ok_or_500 (process_detection model img_np confidence).
Proof.
  unfold process_detection, try_except.
  destruct (bind _ _) as [e|resp] eqn:Hbody; [right; by eexists|].
  left. exists resp. split; [done|].
  unfold bind in Hbody.
  destruct the_model as [|m]; [done|].
  destruct (predict _ _ _) as [|results]; [done|].
  destruct (collect_results _ _ _ _) as [|[ds img]]; [done|].
  by injection Hbody as <-.
Qed.

Lemma wrapped_ok_or_500 (body : py DetectionResponse) :
  (forall resp, body = ret resp -> success resp = true) ->
  ok_or_500 (try_except body (fun e => raise (HTTPException 500 (str_exn e)))).
Proof.
  intros Hok. destruct body as [e|resp]; simpl.
  - right. by eexists.
  - left. exists resp. split; [done|]. by apply Hok.
Qed.

Lemma process_detection_success img_np confidence resp :
  process_detection model img_np confidence = ret resp -> success resp = true.
Proof.
  intros H. destruct (process_detection_ok_or_500 img_np confidence)
    as [(r & Hr & Hs)|(d & Hd)]; unfold ret, raise in *; congruence.
Qed.

Lemma process_detection_not_4xx img_np confidence e :
  process_detection model img_np confidence = raise e ->
  exists detail, e = HTTPException 500 detail.
Proof.
  intros H. destruct (process_detection_ok_or_500 img_np confidence)
    as [(r & Hr & Hs)|(d & Hd)]; unfold ret, raise in *; [congruence|].
  exists d. congruence.
Qed.

Section Routes.
Context {st : Videos.Storage}.

Import Videos.

(** X6: whatever the request, the three detection routes either return a
    response whose success flag is true or raise a 500: no 400 or 404 ever
    leaves them, and no response reports failure. *)
Theorem detection_routes_answer_ok_or_500 :
  (forall request, ok_or_500 (detect_image model request)) /\
  (forall file confidence, ok_or_500 (detect_upload model file confidence)) /\
  (forall video_name confidence, ok_or_500 (detect_video model video_name confidence)).
Proof.
  split; [|split].
  - intros request. apply wrapped_ok_or_500. intros resp H.
    unfold detect_image_body in H.
    repeat (apply bind_ret_inv in H as (? & _ & H)).
    by eapply process_detection_success.
  - intros file confidence. apply wrapped_ok_or_500. intros resp H.
    unfold detect_upload_body in H.
    repeat (apply bind_ret_inv in H as (? & _ & H)).
    by eapply process_detection_success.
  - intros video_name confidence. apply wrapped_ok_or_500. intros resp H.
    unfold detect_video_body in H.
    repeat case_match; simplify_eq; simpl in *; simplify_eq.
    by eapply process_detection_success.
Qed.

(** ** Stored videos *)

Lemma list_videos_of_elem items d :
  d ∈ list_videos_of items ->
  exists name path,
    (name, path) ∈ items /\ path_exists path = true /\ d = video_entry name path.
Proof.
  induction items as [|[name path] items IH]; simpl; [by intros ?%elem_of_nil|].
  destruct (path_exists path) eqn:Hex.
  - intros [->|Hd]%elem_of_cons.
    + exists name, path. split; [left|done].
    + destruct (IH Hd) as (n & p & Hin & Hp & ->).
      exists n, p. split; [by right|done].
  - intros Hd. destruct (IH Hd) as (n & p & Hin & Hp & ->).
    exists n, p. split; [by right|done].
Qed.

Lemma dict_get_elem name path items :
  (name, path) ∈ items -> is_Some (dict_get name items).
Proof.
  induction items as [|[k v] items IH]; [by intros ?%elem_of_nil|].
  simpl. intros [[= <- <-]|Hin]%elem_of_cons.
  - rewrite bool_decide_eq_true_2 by done. by eexists.
  - destruct (bool_decide (k = name)); [by eexists | by apply IH].
Qed.

(** X7: with the model loaded, [detect_video] raises its "Video not found"
    exactly for the names that are not keys of [VIDEOS_DICT]; every entry of
    [list_videos] is the entry of a configured video whose file exists, and
    its name is never answered with "Video not found". *)
Theorem video_not_found_iff_not_a_key video_name confidence :
  model <> None ->
  ((detect_video_body model video_name confidence).1 = raise video_not_found
   <-> dict_get video_name VIDEOS_DICT = None) /\
  (forall d, d ∈ list_videos ->
     exists name path,
       d = video_entry name path /\ path_exists path = true /\
       forall c, (detect_video_body model name c).1 <> raise video_not_found).
Proof.
  intros Hm.
  assert (forall name c,
            (detect_video_body model name c).1 = raise video_not_found
            <-> dict_get name VIDEOS_DICT = None) as Hiff.
  { intros name c. unfold detect_video_body.
    rewrite bool_decide_eq_false_2 by done.
    destruct (dict_get name VIDEOS_DICT) as [path|]; [|done].
    split; [|done].
    destruct (isOpened (VideoCapture path)); simpl; [|done].
    destruct (first_read (VideoCapture path)) as [frame|]; [|done].
    destruct (process_detection model frame c) as [e|resp] eqn:Hp; simpl; [|done].
    apply process_detection_not_4xx in Hp as [d ->]. done. }
  split; [apply Hiff|].
  intros d Hd. apply list_videos_of_elem in Hd as (name & path & Hin & Hex & ->).
  exists name, path. split; [done|]. split; [done|].
  intros c Hnf. apply Hiff in Hnf.
  apply dict_get_elem in Hin as [v Hv]. congruence.
Qed.

(** X8: [detect_video] has called [cap.release()] exactly when it returns a
    response or fails with "Cannot read video frame"; on every other
    failure, the failure of the detection pipeline included, the capture
    has not been released. *)
Theorem video_capture_released_iff video_name confidence :
  (detect_video_body model video_name confidence).2 = true <->
  (exists resp, (detect_video_body model video_name confidence).1 = ret resp) \/
  (detect_video_body model video_name confidence).1 = raise cannot_read.
Proof.
  unfold detect_video_body.
  repeat case_match; simpl; split; try done; try (intros [[? ?]|?]; done);
    try (by right); try (left; by eexists).
  intros [[? ?]|Hr]; [done|].
  injection Hr as ->.
  match goal with H : process_detection _ _ _ = inl _ |- _ =>
    apply process_detection_not_4xx in H as [? ?] end. done.
Qed.

End Routes.
End DetectionLoop.

(** * Properties of the webcam pipeline *)

Section WebcamFacts.
Context {rt : Runtime}.
Variable model : option YOLO.

Import Webcam.

#[local] Set Warnings "-clear-no-such-hyp".
Arguments live : simpl never.
Arguments alive : simpl never.

#[local] Abbreviation step := (step model).
#[local] Abbreviation run := (run model).
#[local] Abbreviation reachable := (reachable model).

(** ** Runs *)

Lemma run_app evs1 evs2 s :
  run (evs1 ++ evs2) s =
  match run evs1 s with Some s' => run evs2 s' | None => None end.
Proof.
  revert s. induction evs1 as [|ev evs1 IH]; intros s; simpl; [done|].
  destruct (step ev s); [apply IH | done].
Qed.

Lemma run_reachable evs s s' :
  reachable s -> run evs s = Some s' -> reachable s'.
Proof.
  revert s. induction evs as [|ev evs IH]; intros s Hs; simpl.
  - by intros [= <-].
  - destruct (step ev s) as [s1|] eqn:Hstep; [|done].
    apply IH. by eapply reachable_step.
Qed.

(** A property kept by every step that is not excluded holds along every
    run made of allowed events. *)
Lemma run_invariant (P : state -> Prop) (allowed : event -> bool) :
  (forall ev s s', allowed ev = true -> P s -> step ev s = Some s' -> P s') ->
  forall evs s s',
    forallb allowed evs = true -> P s -> run evs s = Some s' -> P s'.
Proof.
  intros Hkeep evs. induction evs as [|ev evs IH]; intros s s' Hall HP; simpl.
  - by intros [= <-].
  - simpl in Hall. apply andb_prop in Hall as [Hev Hall].
    destruct (step ev s) as [s1|] eqn:Hstep; [|done].
    apply IH; [done|]. by eapply Hkeep.
Qed.

(** ** The single frame handler *)


(** The request [Frame] is a step of the system exactly when the handler
    gives an answer. *)
Lemma frame_enabled_answers now s :
  frame_enabled s = true <-> is_Some (webcam_frame now s).
Proof.
  unfold frame_enabled, webcam_frame.
  destruct (camera_active s); simpl; [|split; [by eexists | done]].
  destruct (camera_lock s); simpl.
  - split; [done | by intros [? ?]].
  - split; [|done]. intros _. destruct (current_frame s); by eexists.
Qed.

(** ** Counting capture loops *)

Lemma live_app ts1 ts2 : live (ts1 ++ ts2) = live ts1 + live ts2.
Proof. unfold live. by rewrite filter_app, length_app. Qed.

Lemma live_cons t ts : live (t :: ts) = Nat.b2n (alive t) + live ts.
Proof.
  unfold live. rewrite filter_cons.
  destruct (decide (alive t = true)) as [->|Hd]; simpl; [done|].
  by destruct (alive t).
Qed.

Lemma live_insert ts i t t' :
  ts !! i = Some t ->
  live (<[i := t']> ts) + Nat.b2n (alive t) = live ts + Nat.b2n (alive t').
Proof.
  intros Hi.
  rewrite <- (take_drop_middle ts i t Hi) at 2.
  rewrite insert_take_drop by (by eapply lookup_lt_Some).
  rewrite !live_app, !live_cons. lia.
Qed.

Lemma live_nil : live [] = 0.
Proof. reflexivity. Qed.

(** ** Case analysis of a step *)

Ltac step_cases :=
  unfold webcam_start, frame_enabled, task_capture, task_publish, task_loop,
    task_raise, task_except, task_return, generate_frames in *;
  repeat (simpl in *; case_match; simplify_eq); simplify_eq; simpl in *.

Ltac use_live_insert :=
  match goal with
  | Hi : threads _ !! _ = Some ?t |- context [<[_ := ?t']> _] =>
      let He := fresh "He" in
      pose proof (live_insert _ _ _ t' Hi) as He;
      unfold alive in He; simpl in He;
      repeat match goal with Hpc : pc t = _ |- _ => rewrite Hpc in He end;
      simpl in He
  end.

Ltac loops_arith :=
  rewrite ?live_app, ?live_cons, ?live_nil; unfold alive; simpl;
  split; [intros Hfalse|];
  repeat match goal with
  | H : ?a = ?b -> _, H' : ?a = ?b |- _ => specialize (H H')
  | H : ?x = ?x -> _ |- _ => specialize (H eq_refl)
  end; try congruence; try lia.

Ltac same_lock IH :=
  let j := fresh "j" in
  intros j; specialize (IH j);
  try match goal with H : camera_lock _ = _ |- _ => rewrite H end;
  exact IH.

(** ** Invariants *)

(** Every step other than [Stop] keeps [single_loop]. *)
Lemma single_loop_step ev s s' :
  is_stop ev = false -> single_loop s -> step ev s = Some s' -> single_loop s'.
Proof.
  unfold single_loop, capture_loops.
  intros Hev [Hoff Hone] Hstep.
  destruct ev as [c| |now| |i rd|i|i e|j]; simpl in Hstep; try done.
  - step_cases; loops_arith.
  - step_cases; done.
  - by simplify_eq.
  - step_cases; use_live_insert; loops_arith.
  - step_cases; use_live_insert; loops_arith.
  - step_cases; use_live_insert; loops_arith.
  - step_cases; loops_arith.
Qed.

Lemma stop_free_single_loop evs s :
  forallb (fun ev => negb (is_stop ev)) evs = true ->
  run evs init = Some s -> single_loop s.
Proof.
  intros Hall Hrun.
  apply (run_invariant single_loop (fun ev => negb (is_stop ev)))
    with (evs := evs) (s := init); [|done| |done].
  - intros ev s1 s2 Hev. apply single_loop_step. by destruct (is_stop ev).
  - unfold single_loop, capture_loops. simpl. rewrite live_nil. lia.
Qed.

Lemma lock_at_yield_init : lock_at_yield init.
Proof. intros j. split; [done | by intros (x & Hx & _)]. Qed.

Lemma lock_at_yield_step ev s s' :
  lock_at_yield s -> step ev s = Some s' -> lock_at_yield s'.
Proof.
  unfold lock_at_yield. intros IH Hstep.
  destruct ev as [c| |now| |i rd|i|i e|j0]; simpl in Hstep.
  - step_cases; same_lock IH.
  - simplify_eq. exact IH.
  - step_cases. exact IH.
  - simplify_eq. simpl. intros j. rewrite IH. split.
    + intros (x & Hx & Hy). exists x. split; [|done]. by apply lookup_app_l_Some.
    + intros (x & Hx & Hy). exists x. split; [|done].
      apply lookup_app_Some in Hx as [Hx|[_ Hx]]; [done|].
      apply list_lookup_singleton_Some in Hx as [_ <-]. done.
  - step_cases; same_lock IH.
  - step_cases; same_lock IH.
  - step_cases; same_lock IH.
  - step_cases.
    all: intros j; pose proof (IH j) as IHj; pose proof (IH j0) as IHj0;
      destruct (decide (j = j0)) as [->|Hne];
      [rewrite list_lookup_insert_eq by (by eapply lookup_lt_Some)
      |rewrite list_lookup_insert_ne by done].
    all: try (unfold yield, set_spc; naive_solver).
    all: split; [intros Hl; apply IHj0 in Hl as (x & Hx & Hy); simplify_eq; congruence
                |intros (x & Hx & Hy); simplify_eq; done].
Qed.

Lemma nondecreasing_snoc l g :
  nondecreasing l -> Forall (fun a => a <= g) l -> nondecreasing (l ++ [g]).
Proof.
  intros Hl Hg i a b Ha Hb.
  apply lookup_app_Some in Hb as [Hb|[Hlen Hb]].
  - apply (Hl i a b); [|done].
    rewrite lookup_app_l in Ha; [done|]. apply lookup_lt_Some in Hb. lia.
  - apply list_lookup_singleton_Some in Hb as [Hi <-].
    rewrite lookup_app_l in Ha by lia.
    rewrite Forall_lookup in Hg. by eapply Hg.
Qed.

Lemma generations_yield c g x :
  generations (yield c g x) = (generations x ++ [g])%list.
Proof. unfold generations, yield. simpl. by rewrite fmap_app. Qed.

Lemma emitted_in_order_init : emitted_in_order init.
Proof. intros j x Hx. done. Qed.

Lemma emitted_in_order_step ev s s' :
  emitted_in_order s -> step ev s = Some s' -> emitted_in_order s'.
Proof.
  unfold emitted_in_order. intros IH Hstep.
  destruct ev as [c| |now| |i rd|i|i e|j0]; simpl in Hstep.
  - step_cases; exact IH.
  - simplify_eq. exact IH.
  - step_cases. exact IH.
  - simplify_eq. simpl. intros j x Hx.
    apply lookup_app_Some in Hx as [Hx|[_ Hx]]; [by eapply IH|].
    apply list_lookup_singleton_Some in Hx as [_ <-].
    split; [intros i a b Ha; done | by apply Forall_nil].
  - step_cases; exact IH.
  - step_cases.
    intros j x Hx. destruct (IH j x Hx) as [Hnd Hle]. split; [done|].
    eapply Forall_impl; [exact Hle|]. simpl. lia.
  - step_cases; exact IH.
  - step_cases.
    all: intros j x Hx; destruct (decide (j = j0)) as [->|Hne];
      [rewrite list_lookup_insert_eq in Hx by (by eapply lookup_lt_Some)
      |rewrite list_lookup_insert_ne in Hx by done; by eapply IH].
    all: simplify_eq;
      match goal with H : streams _ !! _ = Some ?x0 |- _ =>
        destruct (IH _ _ H) as [Hnd Hle] end.
    all: try done.
    rewrite generations_yield. split.
    + by apply nondecreasing_snoc.
    + apply Forall_app. split; [done|]. by apply Forall_singleton.
Qed.

Lemma reachable_invariants s :
  reachable s -> lock_at_yield s /\ emitted_in_order s.
Proof.
  induction 1 as [|s ev s' _ [IH1 IH2] Hstep].
  - split; [apply lock_at_yield_init | apply emitted_in_order_init].
  - split; [by eapply lock_at_yield_step | by eapply emitted_in_order_step].
Qed.


(** ** The lifecycle *)

(** C2, as amended: a [start] while the webcam is active returns the
    already-active status, starts no thread and leaves the state as it is;
    so does the second of two [start]s in a row; and until the first [stop]
    at most one capture loop exists. *)
Theorem start_while_active_is_noop :
  (forall c s, camera_active s = true ->
     webcam_start model c s = (s, ret already_active)) /\
  (forall c1 c2 s,
     (webcam_start model c2 (webcam_start model c1 s).1).1
     = (webcam_start model c1 s).1) /\
  (forall evs s,
     forallb (fun ev => negb (is_stop ev)) evs = true ->
     run evs init = Some s -> capture_loops s <= 1).
Proof.
  split; [|split].
  - intros c s Hact. unfold webcam_start. by rewrite Hact.
  - intros c1 c2 s. unfold webcam_start.
    destruct (camera_active s) eqn:Hact; simpl; [by rewrite Hact|].
    destruct (bool_decide (model = None)) eqn:Hm; simpl; [by rewrite Hact|done].
  - intros evs s Hall Hrun. by destruct (stop_free_single_loop evs s Hall Hrun).
Qed.


(** ** Stream sessions *)

(** C4, as amended: a poll that finds the webcam active and a frame in the
    slot emits that frame with the slot's generation, whatever the session
    emitted before; the session then goes to its sleep; the generations a
    session emits never decrease. *)
Theorem session_emits_on_every_poll :
  (forall s j x frame,
     streams s !! j = Some x -> spc x = SessWhile ->
     camera_active s = true -> camera_lock s = None ->
     current_frame s = Some frame ->
     exists s', step (Session j) s = Some s' /\
       streams s' !! j =
         Some (yield (chunk (cv2_imencode_jpg frame)) (generation s) x)) /\
  (forall s j x,
     streams s !! j = Some x -> spc x = SessYield ->
     exists s', step (Session j) s = Some s' /\
       streams s' !! j = Some (set_spc SessSleep x)) /\
  (forall s, reachable s ->
     forall j x, streams s !! j = Some x -> nondecreasing (generations x)).
Proof.
  split; [|split].
  - intros s j x frame Hx Hpc Hact Hlock Hframe. simpl. rewrite Hx.
    unfold generate_frames. rewrite Hpc, Hact, Hlock, Hframe.
    eexists. split; [done|]. simpl.
    apply list_lookup_insert_eq. by eapply lookup_lt_Some.
  - intros s j x Hx Hpc. simpl. rewrite Hx. unfold generate_frames. rewrite Hpc.
    eexists. split; [done|]. simpl.
    apply list_lookup_insert_eq. by eapply lookup_lt_Some.
  - intros s Hs j x Hx.
    destruct (reachable_invariants s Hs) as [_ Hord]. by destruct (Hord j x Hx).
Qed.

(** C7, as amended: a session holds [camera_lock] exactly while it is
    suspended at its [yield], that is from its read of the slot, through
    the encoding, until it is resumed after the chunk was taken; it does
    not hold it while it sleeps.  Meanwhile the capture loop's publish and
    the other sessions' reads wait, and the holder's next resumption frees
    the lock. *)
Theorem lock_held_from_read_to_resume s :
  reachable s ->
  (forall j x, streams s !! j = Some x ->
     (camera_lock s = Some j <-> spc x = SessYield)) /\
  (forall j, camera_lock s = Some j ->
     (exists s', step (Session j) s = Some s' /\ camera_lock s' = None) /\
     (forall i t frame, threads s !! i = Some t -> pc t = TaskPublish frame ->
        step (Publish i) s = None) /\
     (forall k x, streams s !! k = Some x -> spc x = SessWhile ->
        camera_active s = true -> step (Session k) s = None)).
Proof.
  intros Hs. destruct (reachable_invariants s Hs) as [Hlock _].
  split.
  - intros j x Hx. rewrite (Hlock j). split.
    + intros (y & Hy & Hpc). by simplify_eq.
    + intros Hpc. by exists x.
  - intros j Hj. split; [|split].
    + apply Hlock in Hj as (x & Hx & Hpc). simpl. rewrite Hx.
      unfold generate_frames. rewrite Hpc. by eexists.
    + intros i t frame Ht Hpc. simpl. rewrite Ht.
      unfold task_publish. by rewrite Hpc, Hj.
    + intros k x Hx Hpc Hact. simpl. rewrite Hx.
      unfold generate_frames. by rewrite Hpc, Hact, Hj.
Qed.

(** ** The capture loop *)

(** C5, as amended: when an error is raised inside the capture loop, the
    thread prints it, switches the webcam off and ends; the frame slot, the
    lock and the stream sessions are left as they were. *)
Theorem capture_error_stops_pipeline s i e ev :
  raises_in_loop model s i e ev ->
  exists s',
    step ev s = Some s' /\
    camera_active s' = false /\
    stdout s' = (stdout s ++ ["❌ Erreur webcam: " +:+ str_exn e])%list /\
    current_frame s' = current_frame s /\
    generation s' = generation s /\
    streams s' = streams s /\
    camera_lock s' = camera_lock s /\
    exists t', threads s' !! i = Some t' /\ pc t' = TaskFailed.
Proof.
  intros [t Ht Hpc | t raw Ht Hpc Hact Hraise]; simpl; rewrite Ht.
  - unfold task_raise. destruct Hpc as [-> | ->]; simpl;
      (eexists; repeat split; eexists; split;
       [apply list_lookup_insert_eq; by eapply lookup_lt_Some | done]).
  - unfold task_capture, task_loop.
    destruct Hpc as [-> | ->]; simpl; rewrite Hact, Hraise; simpl;
      (eexists; repeat split; eexists; split;
       [apply list_lookup_insert_eq; by eapply lookup_lt_Some | done]).
Qed.

(** When [cap.read()] returns no data the thread leaves the loop and
    releases the camera; [camera_active] keeps its value. *)
Lemma no_data_exit s i t :
  threads s !! i = Some t ->
  pc t = TaskOpen \/ pc t = TaskWhile ->
  exists s',
    step (Capture i ReadNoData) s = Some s' /\
    camera_active s' = camera_active s /\
    threads s' !! i = Some (set_pc TaskReturned (set_cap CapReleased t)).
Proof.
  intros Ht Hpc. simpl. rewrite Ht. unfold task_capture, task_loop.
  destruct Hpc as [-> | ->]; destruct (camera_active s) eqn:Hact; simpl;
    (eexists; split; [done|]; split; [done|]; simpl;
     rewrite list_lookup_insert_eq by (by eapply lookup_lt_Some);
     by destruct t).
Qed.

(** While the webcam is active a generator never finishes: resumed any
    number of times, the only session of a state is still running. *)
Lemma stream_never_ends n s :
  streaming s ->
  exists s', run (replicate n (Session 0)) s = Some s' /\ streaming s'.
Proof.
  revert s. induction n as [|n IH]; intros s Hs; simpl; [by exists s|].
  destruct Hs as (Hact & x & Hx & Hnd & Hlock). rewrite Hx. simpl.
  unfold generate_frames. rewrite Hact.
  destruct (spc x) eqn:Hpc; [rewrite Hlock by done; destruct (current_frame s)| | |done];
    apply IH; (split; [done|]); eexists; simpl; rewrite Hx; simpl;
    (split; [done|]); simpl; (split; [done|]); try done; intros _; by apply Hlock.
Qed.

(** ** The frame slot over time *)

Lemma slot_step ev s s' :
  step ev s = Some s' ->
  (is_Some (current_frame s) -> is_Some (current_frame s')) /\
  generation s <= generation s' /\
  (slot_filled s -> slot_filled s').
Proof.
  unfold slot_filled. intros Hstep.
  destruct ev as [c| |now| |i rd|i|i e|j0]; simpl in Hstep; step_cases;
    (split; [try done; intros _; by eexists|]); (split; [lia|]); try done.
  all: match goal with H : current_frame _ = _ |- _ => by rewrite H end.
Qed.

(** X9: nothing ever empties the frame slot: along every run a frame, once
    published, is followed only by frames, and the count of publishes never
    decreases; so in every reachable state the slot is empty exactly when
    nothing was published yet. *)
Theorem frame_slot_is_never_cleared :
  (forall evs s s',
     run evs s = Some s' ->
     (is_Some (current_frame s) -> is_Some (current_frame s')) /\
     generation s <= generation s') /\
  (forall s, reachable s -> (current_frame s = None <-> generation s = 0)).
Proof.
  split.
  - intros evs. induction evs as [|ev evs IH]; intros s s'; simpl.
    + intros [= <-]. done.
    + destruct (step ev s) as [s1|] eqn:Hstep; [|done]. intros Hrun.
      destruct (slot_step ev s s1 Hstep) as (H1 & H2 & _).
      destruct (IH s1 s' Hrun) as (H3 & H4). split; [auto | lia].
  - induction 1 as [|s ev s' _ IH Hstep]; [done|].
    by destruct (slot_step ev s s' Hstep) as (_ & _ & H3); apply H3.
Qed.

Lemma emitted_after_publish_step ev s s' :
  slot_filled s -> emitted_after_publish s -> step ev s = Some s' ->
  emitted_after_publish s'.
Proof.
  unfold slot_filled, emitted_after_publish. intros Hslot IH Hstep.
  destruct ev as [c| |now| |i rd|i|i e|j0]; simpl in Hstep.
  - step_cases; exact IH.
  - simplify_eq. exact IH.
  - step_cases. exact IH.
  - simplify_eq. simpl. intros j x Hx.
    apply lookup_app_Some in Hx as [Hx|[_ Hx]]; [by eapply IH|].
    apply list_lookup_singleton_Some in Hx as [_ <-]. by apply Forall_nil.
  - step_cases; exact IH.
  - step_cases; exact IH.
  - step_cases; exact IH.
  - step_cases.
    all: intros j x Hx; destruct (decide (j = j0)) as [->|Hne];
      [rewrite list_lookup_insert_eq in Hx by (by eapply lookup_lt_Some)
      |rewrite list_lookup_insert_ne in Hx by done; by eapply IH].
    all: simplify_eq;
      try match goal with H : streams _ !! _ = Some ?x0 |- _ => exact (IH _ x0 H) end.
    rewrite generations_yield. apply Forall_app. split; [by eapply IH|].
    apply Forall_singleton. destruct (generation s); [|lia].
    by destruct Hslot as [_ Hs]; specialize (Hs eq_refl).
Qed.

(** X10: a stream session emits nothing before the capture loop's first
    publish: in every reachable state each emitted chunk carries a
    generation between 1 and the current one, and while the slot is empty
    no session has emitted anything. *)
Theorem nothing_emitted_before_first_publish s :
  reachable s ->
  forall j x, streams s !! j = Some x ->
    Forall (fun g => 1 <= g <= generation s) (generations x) /\
    (current_frame s = None -> emitted x = []).
Proof.
  intros Hs.
  assert (slot_filled s /\ emitted_after_publish s) as [Hslot Hpos].
  { induction Hs as [|s ev s' _ [IH1 IH2] Hstep].
    - split; [done|]. intros j x Hx. done.
    - split; [by destruct (slot_step ev s s' Hstep) as (_ & _ & H3); apply H3|].
      by eapply emitted_after_publish_step. }
  destruct (reachable_invariants s Hs) as [_ Hord].
  intros j x Hx. destruct (Hord j x Hx) as [_ Hle]. specialize (Hpos j x Hx).
  assert (Forall (fun g => 1 <= g <= generation s) (generations x)) as Hboth.
  { rewrite Forall_forall in *. intros g Hg. split; [by apply Hpos | by apply Hle]. }
  split; [done|]. intros Hnone. apply Hslot in Hnone. rewrite Hnone in Hboth.
  unfold generations in Hboth. destruct (emitted x) as [|[c g] l]; [done|].
  simpl in Hboth. apply Forall_cons in Hboth as [Hg _]. simpl in Hg. lia.
Qed.

(** ** The camera handle *)

Lemma handle_matches_step ev s s' :
  Forall handle_matches (threads s) -> step ev s = Some s' ->
  Forall handle_matches (threads s').
Proof.
  intros IH Hstep.
  destruct ev as [c| |now| |i rd|i|i e|j0]; simpl in Hstep; step_cases;
    try exact IH;
    try (apply Forall_app; split; [done|]; by apply Forall_singleton);
    match goal with H : threads _ !! _ = Some ?t |- _ =>
      pose proof (proj1 (Forall_lookup _ _) IH _ _ H) as Ht end;
    apply Forall_insert; try done;
    unfold handle_matches in *; simpl;
    repeat match goal with H : pc _ = _ |- _ => rewrite H in Ht end;
    simpl in *; congruence.
Qed.

(** X11: in every reachable state each capture thread's camera handle goes
    with its program point: not yet bound before the camera is opened, open
    while the thread is in the loop, released once the thread has returned
    normally, and never released once it has ended in the [except]
    clause. *)
Theorem camera_released_only_on_normal_exit s i t :
  reachable s -> threads s !! i = Some t -> handle_matches t.
Proof.
  intros Hs. revert i t.
  induction Hs as [|s ev s' _ IH Hstep]; intros i t Ht; [done|].
  assert (Forall handle_matches (threads s)) as Hall.
  { apply Forall_lookup. exact IH. }
  apply (handle_matches_step ev s s') in Hall; [|done].
  by eapply (proj1 (Forall_lookup _ _) Hall).
Qed.

(** ** Shutdown *)

(** X12: once the webcam is inactive and the lock is free, a capture
    thread that is at its loop test ends at its next resumption and
    releases the camera, leaving the slot as it is; a thread that already
    holds an annotated frame publishes it first, so one frame can still
    reach the slot after [stop], and ends at the resumption after that. *)
Theorem capture_loop_ends_after_stop s i t rd :
  threads s !! i = Some t -> camera_active s = false -> camera_lock s = None ->
  (pc t = TaskOpen \/ pc t = TaskWhile ->
   exists s', run [Capture i rd] s = Some s' /\
     threads s' !! i = Some (set_pc TaskReturned (set_cap CapReleased t)) /\
     current_frame s' = current_frame s /\ camera_active s' = false) /\
  (forall frame, pc t = TaskPublish frame ->
   exists s', run [Publish i; Capture i rd] s = Some s' /\
     threads s' !! i = Some (set_pc TaskReturned (set_cap CapReleased t)) /\
     current_frame s' = Some frame /\ camera_active s' = false).
Proof.
  intros Ht Hoff Hlock. pose proof (lookup_lt_Some _ _ _ Ht) as Hlt. split.
  - intros Hpc. simpl. rewrite Ht. unfold task_capture, task_loop.
    destruct Hpc as [-> | ->]; rewrite Hoff; simpl;
      (eexists; split; [done|]); simpl;
      rewrite list_lookup_insert_eq by done; by destruct t.
  - intros frame Hpc. simpl. rewrite Ht. unfold task_publish.
    rewrite Hpc, Hlock. simpl.
    rewrite list_lookup_insert_eq by done. simpl.
    unfold task_loop. simpl. rewrite Hoff. simpl.
    eexists; split; [done|]. simpl. rewrite list_insert_insert_eq.
    rewrite list_lookup_insert_eq by done.
    by destruct t.
Qed.

(** X13: once the webcam is inactive, a stream session that has not ended
    ends within three resumptions, without emitting anything more; a
    session that was suspended at its [yield] has given the lock back by
    then. *)
Theorem stream_ends_after_stop s j x :
  streams s !! j = Some x -> camera_active s = false -> spc x <> SessDone ->
  exists n s',
    n <= 3 /\ run (replicate n (Session j)) s = Some s' /\
    streams s' !! j = Some (set_spc SessDone x) /\
    (spc x = SessYield -> camera_lock s' = None).
Proof.
  intros Hx Hoff Hnd. pose proof (lookup_lt_Some _ _ _ Hx) as Hlt.
  destruct (spc x) eqn:Hpc; [exists 1|exists 3|exists 2|done]; eexists;
    (split; [lia|]); simpl; rewrite Hx; unfold generate_frames; rewrite Hpc;
    simpl; rewrite ?list_lookup_insert_eq by (by rewrite ?length_insert);
    simpl; rewrite ?Hoff; simpl;
    rewrite ?list_lookup_insert_eq by (by rewrite ?length_insert); simpl;
    rewrite ?Hoff; simpl;
    (split; [done|]); simpl; rewrite ?list_insert_insert_eq;
    rewrite list_lookup_insert_eq by done; by destruct x.
Qed.

(** X14: with the model loaded, [stop] followed by [start] always answers
    "started" and starts a new thread, whatever the threads started before
    are doing: they are left as they are, the number of capture loops
    grows by one, and the slot keeps its frame. *)
Theorem stop_then_start_spawns_a_loop c s :
  model <> None ->
  (webcam_start model c (webcam_stop s).1).2 = ret (started c) /\
  threads (webcam_start model c (webcam_stop s).1).1
  = (threads s ++ [new_task c])%list /\
  capture_loops (webcam_start model c (webcam_stop s).1).1 = S (capture_loops s) /\
  camera_active (webcam_start model c (webcam_stop s).1).1 = true /\
  current_frame (webcam_start model c (webcam_stop s).1).1 = current_frame s.
Proof.
  intros Hm. unfold webcam_start, webcam_stop, capture_loops. simpl.
  rewrite bool_decide_eq_false_2 by done. simpl.
  repeat split. rewrite live_app, live_cons, live_nil. simpl. lia.
Qed.

(** ** The capture loop on its own *)

(** One read followed by one publish of thread [i]. *)
Lemma read_and_publish i t raw f s :
  threads s !! i = Some t ->
  pc t = TaskOpen \/ pc t = TaskWhile ->
  camera_active s = true -> camera_lock s = None ->
  annotate model (task_confidence t) raw = ret f ->
  exists t' s',
    run [Capture i (ReadFrame raw); Publish i] s = Some s' /\
    threads s' !! i = Some t' /\
    pc t' = TaskWhile /\ task_confidence t' = task_confidence t /\
    camera_active s' = true /\ camera_lock s' = None /\
    generation s' = S (generation s) /\ current_frame s' = Some f.
Proof.
  intros Ht Hpc Hact Hlock Hf. pose proof (lookup_lt_Some _ _ _ Ht) as Hlt.
  simpl. rewrite Ht. unfold task_capture, task_loop.
  destruct Hpc as [Hpc | Hpc]; rewrite Hpc, Hact; simpl; rewrite Hf; simpl;
    rewrite list_lookup_insert_eq by done; unfold task_publish; simpl;
    rewrite Hlock; simpl; rewrite list_insert_insert_eq;
    (eexists; eexists; split; [done|]); simpl;
    rewrite list_lookup_insert_eq by done; by repeat split.
Qed.

(** X15: in a run made only of reads and publishes of one capture thread,
    on a camera that returns frames and with a detector that does not raise
    (so with no stop, no stream session at its [yield] and no call raising
    in between), every frame read is published: the thread is back at its
    loop test, the slot has been assigned once per frame, and it holds the
    annotated last frame. *)
Theorem uninterrupted_loop_publishes_latest i t raws s :
  threads s !! i = Some t ->
  pc t = TaskOpen \/ pc t = TaskWhile ->
  camera_active s = true -> camera_lock s = None ->
  Forall (fun raw => exists f, annotate model (task_confidence t) raw = ret f) raws ->
  raws <> [] ->
  exists t' s',
    run (loop_events i raws) s = Some s' /\
    threads s' !! i = Some t' /\
    pc t' = TaskWhile /\ task_confidence t' = task_confidence t /\
    camera_active s' = true /\
    generation s' = generation s + length raws /\
    (forall raw f, last raws = Some raw ->
       annotate model (task_confidence t) raw = ret f -> current_frame s' = Some f).
Proof.
  intros Ht Hpc Hact Hlock Hall Hne.
  revert t s Ht Hpc Hact Hlock Hall.
  induction raws as [|raw raws IH]; intros t s Ht Hpc Hact Hlock Hall; [done|].
  apply Forall_cons in Hall as [[f Hf] Hall].
  destruct (read_and_publish i t raw f s Ht Hpc Hact Hlock Hf)
    as (t1 & s1 & Hrun1 & Ht1 & Hpc1 & Hc1 & Hact1 & Hlock1 & Hgen1 & Hcf1).
  change (loop_events i (raw :: raws))
    with ([Capture i (ReadFrame raw); Publish i] ++ loop_events i raws)%list.
  rewrite run_app, Hrun1.
  destruct raws as [|raw2 raws].
  - exists t1, s1. simpl. repeat split; try done; [lia|].
    intros raw' f' [= <-] Hf'. unfold ret in *. congruence.
  - rewrite <- Hc1 in Hall.
    destruct (IH ltac:(done) t1 s1 Ht1 (or_intror Hpc1) Hact1 Hlock1 Hall)
      as (t' & s' & Hrun & Ht' & Hpc' & Hc' & Hact' & Hgen' & Hlast').
    exists t', s'. repeat split; try done; [congruence | simpl in *; lia |].
    intros raw' f' Hlast Hf'. apply (Hlast' raw' f'); [|by rewrite Hc1].
    by rewrite last_cons_cons in Hlast.
Qed.

(** ** Without a model *)

Lemma never_started_step ev s s' :
  model = None -> never_started s -> step ev s = Some s' -> never_started s'.
Proof.
  unfold never_started. intros Hm (Hoff & Hth & Hcf) Hstep.
  destruct ev as [c| |now| |i rd|i|i e|j0]; simpl in Hstep;
    rewrite ?Hth in Hstep; simpl in Hstep; try done.
  - unfold webcam_start in Hstep. rewrite Hoff, bool_decide_eq_true_2 in Hstep by done.
    by simplify_eq.
  - by simplify_eq.
  - by step_cases.
  - by simplify_eq.
  - by step_cases.
Qed.

(** X16: when the model failed to load, the webcam can never be switched
    on: after any sequence of requests the webcam is inactive, no capture
    thread exists, the slot is empty, [start] raises "Model not loaded" and
    [frame()] answers NotActive. *)
Theorem without_model_webcam_stays_off evs s :
  model = None -> run evs init = Some s ->
  camera_active s = false /\ threads s = [] /\ current_frame s = None /\
  (forall c, webcam_start model c s = (s, raise Detection.model_not_loaded)) /\
  (forall now, webcam_frame now s = Some (raise not_active)).
Proof.
  intros Hm Hrun.
  assert (never_started s) as (Hoff & Hth & Hcf).
  { apply (run_invariant never_started (fun _ => true)) with (evs := evs) (s := init);
      [|by apply forallb_forall|done|done].
    intros ev s1 s2 _. by apply never_started_step. }
  repeat split; try done.
  - intros c. unfold webcam_start. by rewrite Hoff, bool_decide_eq_true_2.
  - intros now. unfold webcam_frame. by rewrite Hoff.
Qed.

End WebcamFacts.

(** * Scenarios

    The handlers and the pipeline evaluated with the runtime and the
    detectors of [Sample]. *)

Section Scenarios.

Import Detection Webcam Sample.

#[local] Existing Instance Sample.runtime.
#[local] Abbreviation run := (Webcam.run model).
#[local] Abbreviation step := (Webcam.step model).

Lemma showing_reached : run to_showing init = Some showing.
Proof. reflexivity. Qed.

Lemma waiting_reached : run [Start 0.5%float] init = Some waiting.
Proof. reflexivity. Qed.

(** C1, where the code departs from it: the camera returns no data on the
    first read.  The capture loop ends and releases the camera, but
    [camera_active] stays true: the status still says active, [start]
    answers already-active, and a stream opened afterwards is never ended
    by its generator. *)
Theorem no_data_leaves_webcam_active :
  webcam_stream_task model [ReadNoData] (new_task 0.5%float) waiting
  = (thread TaskReturned CapReleased, print "📹 Stream webcam arrêté" waiting) /\
  exists s,
    run [Start 0.5%float; Capture 0 ReadNoData] init = Some s /\
    threads s = [thread TaskReturned CapReleased] /\
    capture_loops s = 0 /\
    camera_active s = true /\
    webcam_status s = {| active := true; status_message := "Webcam active" |} /\
    (webcam_start model 0.5%float s).2 = ret already_active /\
    forall n, exists s',
      run (Stream :: replicate n (Session 0)) s = Some s' /\ streaming s'.
Proof.
  split; [reflexivity|].
  eexists. split; [reflexivity|]. repeat split.
  intros n. cbn [Webcam.run Webcam.step].
  apply stream_never_ends. split; [done|].
  eexists. split; [reflexivity|]. by split.
Qed.

(** ** Detection *)

Lemma zero_objects_response_witness :
  exists resp,
    process_detection model raw1 0.5%float = ret resp /\
    detections resp = [] /\ count resp = 0%Z /\ success resp = true /\
    message resp = "Aucun objet détecté".
Proof.
  apply (zero_objects_response model blind raw1 0.5%float
           [ {| boxes := Some []; plot := to_bgr raw1 |} ]).
  - reflexivity.
  - reflexivity.
  - constructor; [right; reflexivity | constructor].
Defined.

Lemma response_matches_detections_witness :
  exists resp,
    process_detection (Some keen) raw1 0.5%float = ret resp /\
    success resp = true /\ count resp = 1%Z /\
    length (detections resp) = 1%nat /\
    message resp = "1 objets détectés".
Proof.
  destruct (process_detection (Some keen) raw1 0.5%float) as [e|resp] eqn:Hrun;
    [discriminate Hrun|].
  exists resp.
  destruct (response_matches_detections (Some keen) raw1 0.5%float resp Hrun)
    as (Hs & Hc & Hpos & _).
  injection Hrun as <-.
  split; [reflexivity|]. split; [exact Hs|]. split; [reflexivity|].
  split; [reflexivity|]. apply Hpos. reflexivity.
Defined.

Lemma rejection_reaches_client_as_500_witness :
  (no_image no_image_request = true /\
   detect_image model no_image_request
   = raise (HTTPException 500 "400: No image provided") /\
   http_status (detect_image model no_image_request) = 500%Z) /\
  (String.prefix "image/" "text/plain" = false /\
   detect_upload model text_upload 0.5%float
   = raise (HTTPException 500 "400: File must be an image") /\
   http_status (detect_upload model text_upload 0.5%float) = 500%Z).
Proof.
  destruct (rejection_reaches_client_as_500 model) as [Himage Hupload].
  split.
  - destruct (Himage no_image_request eq_refl) as (e & _ & Hraise & Hstatus & He).
    split; [reflexivity|]. split; [|exact Hstatus].
    rewrite Hraise, He; [reflexivity | discriminate].
  - assert (forall ct, content_type text_upload = Some ct ->
                       String.prefix "image/" ct = false) as Hct.
    { intros ct [= <-]. reflexivity. }
    destruct (Hupload text_upload 0.5%float Hct) as (e & _ & Hraise & Hstatus & He).
    split; [reflexivity|]. split; [|exact Hstatus].
    rewrite Hraise, He; [reflexivity | discriminate | by eexists].
Defined.

(** ** Single frame *)



(** ** Lifecycle *)

(** [start], [stop] and [start] again before the first loop has tested the
    flag: two capture loops exist, and both go on publishing. *)
Lemma restart_before_exit_two_loops :
  exists s,
    run (to_publish ++ [Stop; Start 0.25%float]) init = Some s /\
    capture_loops s = 2 /\
    exists s',
      run [Publish 0; Capture 1 (ReadFrame raw2); Capture 0 (ReadFrame raw1);
           Publish 1; Publish 0] s = Some s' /\
      capture_loops s' = 2 /\ camera_active s' = true /\ generation s' = 3.
Proof.
  eexists. split; [reflexivity|]. split; [reflexivity|].
  eexists. split; [reflexivity|]. by repeat split.
Qed.

Lemma start_while_active_is_noop_witness :
  webcam_start model 0.25%float waiting = (waiting, ret already_active) /\
  (webcam_start model 0.25%float (webcam_start model 0.5%float init).1).1
  = (webcam_start model 0.5%float init).1 /\
  capture_loops showing <= 1.
Proof.
  destruct (start_while_active_is_noop model) as (Hnoop & Htwice & Hone).
  split; [|split].
  - apply Hnoop. reflexivity.
  - apply Htwice.
  - apply (Hone to_showing showing); reflexivity.
Defined.



(** ** Stream sessions *)

(** One publish, then a session polls twice: both chunks carry
    generation 1. *)
Lemma unchanged_frame_is_sent_again :
  exists s,
    run (to_polled ++ [Session 0]) init = Some s /\
    generation s = 1 /\
    (generations <$> streams s) = [[1; 1]].
Proof. eexists. split; [reflexivity|]. by split. Qed.

Lemma session_emits_on_every_poll_witness :
  run to_polled init = Some polled /\
  (exists s', step (Session 0) polled = Some s' /\
              (generations <$> streams s' !! 0) = Some [1; 1]) /\
  (forall j x, streams polled !! j = Some x -> nondecreasing (generations x)).
Proof.
  destruct (session_emits_on_every_poll model) as (Hemit & _ & Horder).
  split; [reflexivity|]. split.
  - destruct (Hemit polled 0 viewer frame1 eq_refl eq_refl eq_refl eq_refl eq_refl)
      as (s' & Hstep & Hx).
    exists s'. split; [exact Hstep|]. rewrite Hx. reflexivity.
  - apply Horder.
    apply (run_reachable model to_polled init);
      [apply reachable_init | reflexivity].
Defined.

(** Session 0 is suspended at its [yield] with the lock; the capture loop
    has the next frame ready and cannot publish it, session 1 cannot read
    the slot, and neither can [frame()]. *)
Lemma session_keeps_lock_at_yield :
  exists s x,
    run (to_showing ++ [Stream; Stream; Session 0; Capture 0 (ReadFrame raw2)]) init
    = Some s /\
    streams s !! 0 = Some x /\ spc x = SessYield /\ length (emitted x) = 1 /\
    camera_lock s = Some 0 /\
    (pc <$> threads s) = [TaskPublish (cv2_resize raw2 (640, 480))] /\
    step (Publish 0) s = None /\
    step (Session 1) s = None /\
    step (Frame 0.5%float) s = None.
Proof.
  eexists. eexists. split; [reflexivity|]. split; [reflexivity|]. by repeat split.
Qed.

Lemma lock_held_from_read_to_resume_witness :
  exists s,
    run (to_showing ++ [Stream; Session 0]) init = Some s /\
    camera_lock s = Some 0 /\
    exists s', step (Session 0) s = Some s' /\ camera_lock s' = None.
Proof.
  eexists. split; [reflexivity|]. split; [reflexivity|].
  eapply lock_held_from_read_to_resume; [|reflexivity].
  apply (run_reachable model (to_showing ++ [Stream; Session 0]) init);
    [apply reachable_init | reflexivity].
Defined.

(** ** Capture loop errors *)

(** An error in the loop after one publish: the slot still holds [frame1]
    and the camera handle is still open. *)
Lemma error_leaves_frame_and_camera :
  exists s,
    run (to_showing ++ [TaskRaise 0 device_error]) init = Some s /\
    camera_active s = false /\
    current_frame s = Some frame1 /\
    threads s = [thread TaskFailed CapOpened].
Proof. eexists. split; [reflexivity|]. by repeat split. Qed.

Lemma capture_error_stops_pipeline_witness :
  exists s',
    step (TaskRaise 0 device_error) showing = Some s' /\
    camera_active s' = false /\
    stdout s' = ["❌ Erreur webcam: can't grab frame"] /\
    current_frame s' = Some frame1.
Proof.
  destruct (capture_error_stops_pipeline model showing 0 device_error
              (TaskRaise 0 device_error))
    as (s' & Hstep & Hoff & Hout & Hframe & _).
  - apply (raise_in_library model showing 0 device_error
             (thread TaskWhile CapOpened)); [reflexivity | right; reflexivity].
  - exists s'. split; [exact Hstep|]. split; [exact Hoff|].
    split; [exact Hout | exact Hframe].
Defined.

End Scenarios.

(** * More scenarios *)

Section MoreScenarios.

Import Detection Videos Webcam Sample.

#[local] Existing Instance Sample.runtime.
#[local] Existing Instance Sample.storage.
#[local] Abbreviation run := (Webcam.run model).
#[local] Abbreviation step := (Webcam.step model).

Lemma showing_reachable : reachable model showing.
Proof.
  apply (run_reachable model to_showing init); [apply reachable_init | reflexivity].
Qed.

Lemma polled_reachable : reachable model polled.
Proof.
  apply (run_reachable model to_polled init); [apply reachable_init | reflexivity].
Qed.

(** ** Detection *)

Lemma detections_follow_boxes_witness :
  exists resp,
    process_detection (Some keen) raw1 0.5%float = ret resp /\
    Forall2 (detection_of keen) (detections resp) [one_box] /\
    count resp = 1%Z /\
    image_with_boxes resp = Some "b64:JFIF6".
Proof.
  exact (detections_follow_boxes (Some keen) keen raw1 0.5%float
           [ {| boxes := Some [one_box]; plot := to_bgr raw1 |} ]
           eq_refl eq_refl eq_refl).
Defined.

Lemma unknown_class_fails_request_witness :
  first_unknown stray [one_box; stray_box] = Some stray_box /\
  process_detection (Some stray) raw1 0.5%float
  = raise (HTTPException 500 "Erreur traitement: 7").
Proof.
  split; [reflexivity|].
  exact (unknown_class_fails_request (Some stray) stray raw1 0.5%float
           [ {| boxes := Some [one_box; stray_box]; plot := to_bgr raw1 |} ] stray_box
           eq_refl eq_refl eq_refl).
Defined.

Lemma split_piece_between_markers_witness :
  str_split_1 "base64," "data:image/png;base64,AAAA" = ret "AAAA" /\
  exists before rest,
    "data:image/png;base64,AAAA" = before +:+ "base64," +:+ "AAAA" +:+ rest /\
    str_contains "base64," before = false /\
    str_contains "base64," "AAAA" = false /\
    (rest = "" \/ String.prefix "base64," rest = true).
Proof.
  split; [reflexivity|].
  apply (split_piece_between_markers "data:image/png;base64,AAAA" "AAAA").
  reflexivity.
Defined.

Lemma data_uri_prefix_is_stripped_witness :
  comma_free "data:image/png;" /\ comma_free "iVBORw0KGgo" /\
  detect_image model
    {| confidence := 0.5%float; image := Some "data:image/png;base64,iVBORw0KGgo" |}
  = try_except
      (process_detection model {| shape := [1%nat; 1%nat; 3%nat]; pixels := [11%N] |}
         0.5%float)
      (fun e => raise (HTTPException 500 (str_exn e))).
Proof.
  assert (comma_free "data:image/png;") as Hb by (by apply has_no_comma_sound).
  assert (comma_free "iVBORw0KGgo") as Hp by (by apply has_no_comma_sound).
  split; [exact Hb|]. split; [exact Hp|].
  exact (data_uri_prefix_is_stripped model blind "data:image/png;" "iVBORw0KGgo"
           0.5%float "iVBORw0KGgo" {| shape := [1%nat; 1%nat; 3%nat]; pixels := [11%N] |}
           eq_refl Hb Hp eq_refl eq_refl).
Defined.

Lemma pipeline_failure_is_wrapped_twice_witness :
  detect_image (Some broken) {| confidence := 0.5%float; image := Some "AAAA" |}
  = raise (HTTPException 500 "500: Erreur traitement: out of memory").
Proof.
  assert ("AAAA" <> "") as Hne by discriminate.
  exact (pipeline_failure_is_wrapped_twice (Some broken) broken
           {| confidence := 0.5%float; image := Some "AAAA" |} "AAAA"
           {| shape := [1%nat; 1%nat; 3%nat]; pixels := [4%N] |} out_of_memory
           eq_refl eq_refl Hne eq_refl eq_refl eq_refl).
Defined.

(** ** Stored videos *)

Lemma video_not_found_iff_not_a_key_witness :
  (detect_video_body model "video_3" 0.5%float).1 = raise video_not_found /\
  list_videos = [video_entry "video_1" "videos/video_1.mp4"] /\
  (forall c, (detect_video_body model "video_1" c).1 <> raise video_not_found).
Proof.
  assert (model <> None) as Hm by discriminate.
  split; [|split; [reflexivity|]].
  - apply (video_not_found_iff_not_a_key model "video_3" 0.5%float Hm). reflexivity.
  - destruct (proj2 (video_not_found_iff_not_a_key model "video_3" 0.5%float Hm)
                (video_entry "video_1" "videos/video_1.mp4"))
      as (name & path & Hd & _ & Hfound).
    + apply list_elem_of_singleton. reflexivity.
    + injection Hd as <- _. exact Hfound.
Defined.

(** ** The frame slot *)

Lemma frame_slot_is_never_cleared_witness :
  exists s',
    run [Stop; Capture 0 ReadNoData; Start 0.25%float; TaskRaise 1 device_error] showing
    = Some s' /\
    is_Some (current_frame s') /\ generation showing <= generation s' /\
    (current_frame showing = None <-> generation showing = 0).
Proof.
  destruct (frame_slot_is_never_cleared model) as [Hkeep Hiff].
  eexists. split; [reflexivity|].
  destruct (Hkeep [Stop; Capture 0 ReadNoData; Start 0.25%float; TaskRaise 1 device_error]
              showing _ eq_refl) as [Hsome Hgen].
  split; [apply Hsome; by eexists|]. split; [exact Hgen|].
  apply Hiff. exact showing_reachable.
Defined.

Lemma nothing_emitted_before_first_publish_witness :
  Forall (fun g => 1 <= g <= generation polled) (generations viewer) /\
  (current_frame polled = None -> emitted viewer = []).
Proof.
  apply (nothing_emitted_before_first_publish model polled polled_reachable 0 viewer).
  reflexivity.
Defined.

Lemma camera_released_only_on_normal_exit_witness :
  handle_matches (thread TaskWhile CapOpened).
Proof.
  apply (camera_released_only_on_normal_exit model showing 0 _ showing_reachable).
  reflexivity.
Defined.

(** ** Shutdown *)

Lemma capture_loop_ends_after_stop_witness :
  exists s',
    run [Capture 0 ReadNoData] (webcam_stop showing).1 = Some s' /\
    threads s' !! 0 = Some (thread TaskReturned CapReleased) /\
    current_frame s' = Some frame1 /\ camera_active s' = false.
Proof.
  apply (capture_loop_ends_after_stop model (webcam_stop showing).1 0
           (thread TaskWhile CapOpened) ReadNoData eq_refl eq_refl eq_refl).
  right. reflexivity.
Defined.

Lemma stream_ends_after_stop_witness :
  exists n s',
    n <= 3 /\ run (replicate n (Session 0)) (webcam_stop polled).1 = Some s' /\
    streams s' !! 0 = Some (set_spc SessDone viewer) /\
    (spc viewer = SessYield -> camera_lock s' = None).
Proof.
  apply (stream_ends_after_stop model (webcam_stop polled).1 0 viewer eq_refl eq_refl).
  discriminate.
Defined.

Lemma stop_then_start_spawns_a_loop_witness :
  (webcam_start model 0.25%float (webcam_stop showing).1).2 = ret (started 0.25%float) /\
  threads (webcam_start model 0.25%float (webcam_stop showing).1).1
  = [thread TaskWhile CapOpened; new_task 0.25%float] /\
  capture_loops (webcam_start model 0.25%float (webcam_stop showing).1).1 = 2 /\
  camera_active (webcam_start model 0.25%float (webcam_stop showing).1).1 = true /\
  current_frame (webcam_start model 0.25%float (webcam_stop showing).1).1 = Some frame1.
Proof.
  apply (stop_then_start_spawns_a_loop model 0.25%float showing). discriminate.
Defined.

(** ** The capture loop on its own *)

Lemma uninterrupted_loop_publishes_latest_witness :
  exists t' s',
    run [Capture 0 (ReadFrame raw1); Publish 0; Capture 0 (ReadFrame raw2); Publish 0]
      waiting = Some s' /\
    threads s' !! 0 = Some t' /\ pc t' = TaskWhile /\
    generation s' = 2 /\ current_frame s' = Some frame2.
Proof.
  destruct (uninterrupted_loop_publishes_latest model 0 (thread TaskOpen CapUnbound)
              [raw1; raw2] waiting eq_refl (or_introl eq_refl) eq_refl eq_refl)
    as (t' & s' & Hrun & Ht & Hpc & _ & _ & Hgen & Hlast).
  - constructor; [by eexists|]. constructor; [by eexists|]. constructor.
  - discriminate.
  - exists t', s'. split; [exact Hrun|]. split; [exact Ht|]. split; [exact Hpc|].
    split; [exact Hgen|]. apply (Hlast raw2 frame2); reflexivity.
Defined.

(** ** Without a model *)

Lemma without_model_webcam_stays_off_witness :
  exists s,
    Webcam.run None [Start 0.5%float; Stream; Session 0; Start 0.25%float] init = Some s /\
    camera_active s = false /\ threads s = [] /\ current_frame s = None /\
    webcam_start None 0.5%float s = (s, raise model_not_loaded).
Proof.
  eexists. split; [reflexivity|].
  destruct (without_model_webcam_stays_off None
              [Start 0.5%float; Stream; Session 0; Start 0.25%float] _ eq_refl eq_refl)
    as (Hoff & Hth & Hcf & Hstart & _).
  split; [exact Hoff|]. split; [exact Hth|]. split; [exact Hcf|]. apply Hstart.
Defined.

End MoreScenarios.
